(** * Quest-POC: RSVP token issue, QR payload and scanner check-in

    A shallow embedding of the three components of the repository:
    - the generator page ([makeToken], [handleSubmit]),
    - the check-in scanner ([handleCheckIn] and the decode callback that
      [start] registers),
    - the plain scanner (the decode callback of the second [QRScanner]).

    JavaScript strings are sequences of UTF-16 code units; a code unit is
    an [N].  Firestore's collection [rsvps] is a finite map from document
    id to record. *)

From Stdlib Require Import NArith ZArith List String Ascii Lia Bool.
From Stdlib.Strings Require Import Byte.
From stdpp Require Import base option list gmap.

Open Scope N_scope.

Set Warnings "-register-all".

(** ** JavaScript strings *)

Abbreviation jsstring := (list N).

(** The code units of an ASCII literal of the source. *)
Definition js (s : string) : jsstring :=
  map N_of_ascii (list_ascii_of_string s).


(** ** JSON text (the built-ins [JSON.stringify] and [JSON.parse]) *)

Module JSON.

(** A numeric literal is kept as written: sign, integer digits, fraction
    digits and decimal exponent.  Only its zero test is ever needed. *)
Record numlit := NumLit {
  num_neg : bool;
  num_int : list N;
  num_frac : list N;
  num_exp : Z
}.

Inductive value :=
| Null
| Bool (b : bool)
| Num (n : numlit)
| Str (s : jsstring)
| Arr (l : list value)
| Obj (m : list (jsstring * value)).

(** *** Serialisation *)

(** Lower-case hexadecimal digit. *)
Definition hexdigit (d : N) : N := if d <? 10 then 48 + d else 87 + d.

(** The escape [\uXXXX]: backslash (92), [u] (117), four digits. *)
Definition unicode_escape (c : N) : jsstring :=
  [92; 117; hexdigit (c / 4096 mod 16); hexdigit (c / 256 mod 16);
   hexdigit (c / 16 mod 16); hexdigit (c mod 16)].

(** High surrogates D800-DBFF, low surrogates DC00-DFFF. *)
Definition is_high (c : N) : bool := (55296 <=? c) && (c <=? 56319).
Definition is_low (c : N) : bool := (56320 <=? c) && (c <=? 57343).

(** The body of QuoteJSONString: the two-character escapes, [\u00XX] for
    the other control characters, [\udXXX] for a surrogate that has no
    partner, every other code unit as it is. *)
Fixpoint quote_chars (s : jsstring) : jsstring :=
  match s with
  | [] => []
  | c :: r =>
    if c =? 8 then 92 :: 98 :: quote_chars r          (* backspace: \b *)
    else if c =? 9 then 92 :: 116 :: quote_chars r    (* tab: \t *)
    else if c =? 10 then 92 :: 110 :: quote_chars r   (* line feed: \n *)
    else if c =? 12 then 92 :: 102 :: quote_chars r   (* form feed: \f *)
    else if c =? 13 then 92 :: 114 :: quote_chars r   (* carriage return: \r *)
    else if c =? 34 then 92 :: 34 :: quote_chars r    (* quotation mark *)
    else if c =? 92 then 92 :: 92 :: quote_chars r    (* backslash *)
    else if c <? 32 then unicode_escape c ++ quote_chars r
    else if is_high c then
      match r with
      | l :: r' =>
        if is_low l then c :: l :: quote_chars r'
        else unicode_escape c ++ quote_chars r
      | [] => unicode_escape c
      end
    else if is_low c then unicode_escape c ++ quote_chars r
    else c :: quote_chars r
  end.

(** The string between quotation marks (34). *)
Definition QuoteJSONString (s : jsstring) : jsstring :=
  34 :: quote_chars s ++ [34].

(** The property values that the object literals of the source hold. *)
Inductive prim :=
| PStr (s : jsstring)
| PBool (b : bool).

Definition SerializeJSONProperty (v : prim) : jsstring :=
  match v with
  | PStr s => QuoteJSONString s
  | PBool true => js "true"
  | PBool false => js "false"
  end.

(** A member: key, colon (58), value. *)
Definition member_text (kv : jsstring * prim) : jsstring :=
  QuoteJSONString (fst kv) ++ 58 :: SerializeJSONProperty (snd kv).

(** Members separated by commas (44), no white space (no indent
    argument). *)
Fixpoint members_text (props : list (jsstring * prim)) : jsstring :=
  match props with
  | [] => []
  | [kv] => member_text kv
  | kv :: rest => member_text kv ++ 44 :: members_text rest
  end.

(** [JSON.stringify] of an object whose properties, in insertion order,
    are [props] (distinct keys, none an array index), between braces
    (123, 125). *)
Definition stringify (props : list (jsstring * prim)) : jsstring :=
  123 :: members_text props ++ [125].

(** The parsed form of a property value. *)
Definition value_of_prim (v : prim) : value :=
  match v with
  | PStr s => Str s
  | PBool b => Bool b
  end.

Definition member_value (kv : jsstring * prim) : jsstring * value :=
  (fst kv, value_of_prim (snd kv)).

(** *** Parsing *)

(** White space of the JSON grammar: tab, line feed, carriage return,
    space. *)
Definition is_ws (c : N) : bool :=
  (c =? 9) || (c =? 10) || (c =? 13) || (c =? 32).

Fixpoint skip_ws (inp : jsstring) : jsstring :=
  match inp with
  | c :: r => if is_ws c then skip_ws r else inp
  | [] => []
  end.

(** The value of a hexadecimal digit [0-9a-fA-F]. *)
Definition hexval (c : N) : option N :=
  if (48 <=? c) && (c <=? 57) then Some (c - 48)
  else if (97 <=? c) && (c <=? 102) then Some (c - 87)
  else if (65 <=? c) && (c <=? 70) then Some (c - 55)
  else None.

Definition hex4 (a b c d : N) : option N :=
  match hexval a, hexval b, hexval c, hexval d with
  | Some a, Some b, Some c, Some d => Some (4096 * a + 256 * b + 16 * c + d)
  | _, _, _, _ => None
  end.

(** The single-character escapes after a backslash: quotation mark,
    backslash, solidus, [b], [f], [n], [r], [t]. *)
Definition unescape (e : N) : option N :=
  if e =? 34 then Some 34
  else if e =? 92 then Some 92
  else if e =? 47 then Some 47
  else if e =? 98 then Some 8
  else if e =? 102 then Some 12
  else if e =? 110 then Some 10
  else if e =? 114 then Some 13
  else if e =? 116 then Some 9
  else None.

(** The characters of a string literal, after its opening quote, up to
    and including the closing quote (34); a backslash (92) starts an
    escape, [u] (117) a four-digit one; a raw control character is an
    error. *)
Fixpoint parse_chars (inp : jsstring) : option (jsstring * jsstring) :=
  match inp with
  | [] => None
  | c :: r =>
    if c =? 34 then Some ([], r)
    else if c =? 92 then
      match r with
      | [] => None
      | e :: r1 =>
        if e =? 117 then
          match r1 with
          | h1 :: h2 :: h3 :: h4 :: r2 =>
            match hex4 h1 h2 h3 h4 with
            | Some u =>
              match parse_chars r2 with
              | Some (s, rest) => Some (u :: s, rest)
              | None => None
              end
            | None => None
            end
          | _ => None
          end
        else
          match unescape e with
          | Some u =>
            match parse_chars r1 with
            | Some (s, rest) => Some (u :: s, rest)
            | None => None
            end
          | None => None
          end
      end
    else if c <? 32 then None
    else
      match parse_chars r with
      | Some (s, rest) => Some (c :: s, rest)
      | None => None
      end
  end.

Definition is_digit (c : N) : bool := (48 <=? c) && (c <=? 57).

Fixpoint take_digits (inp : jsstring) : list N * jsstring :=
  match inp with
  | c :: r =>
    if is_digit c then let '(ds, rest) := take_digits r in (c - 48 :: ds, rest)
    else ([], inp)
  | [] => ([], [])
  end.

Definition digits_value (ds : list N) : N :=
  fold_left (fun acc d => 10 * acc + d) ds 0.

(** Optional fraction: a dot (46) followed by at least one digit. *)
Definition parse_frac (inp : jsstring) : option (list N * jsstring) :=
  match inp with
  | c :: r =>
    if c =? 46 then
      match take_digits r with
      | ([], _) => None
      | (ds, rest) => Some (ds, rest)
      end
    else Some ([], inp)
  | [] => Some ([], [])
  end.

(** The optional sign of an exponent: minus (45) or plus (43). *)
Definition parse_sign (inp : jsstring) : bool * jsstring :=
  match inp with
  | c :: r =>
    if c =? 45 then (true, r)
    else if c =? 43 then (false, r)
    else (false, inp)
  | [] => (false, [])
  end.

(** Optional exponent: [e] (101) or [E] (69), an optional sign, at least
    one digit. *)
Definition parse_exp (inp : jsstring) : option (Z * jsstring) :=
  match inp with
  | c :: r =>
    if (c =? 101) || (c =? 69) then
      let '(neg, r1) := parse_sign r in
      match take_digits r1 with
      | ([], _) => None
      | (ds, rest) =>
        let e := Z.of_N (digits_value ds) in
        Some (if neg then (- e)%Z else e, rest)
      end
    else Some (0%Z, inp)
  | [] => Some (0%Z, [])
  end.

(** A number, after its optional minus sign: no leading zero before
    further integer digits. *)
Definition parse_number (neg : bool) (inp : jsstring) : option (value * jsstring) :=
  match take_digits inp with
  | ([], _) => None
  | (d :: ds, rest) =>
    let '(ip, rest) :=
      if d =? 0 then ([d], skipn 1 inp) else (d :: ds, rest) in
    match parse_frac rest with
    | Some (fp, rest1) =>
      match parse_exp rest1 with
      | Some (e, rest2) => Some (Num (NumLit neg ip fp e), rest2)
      | None => None
      end
    | None => None
    end
  end.

(** [strip_prefix p inp]: the rest of [inp] after the literal [p]. *)
Fixpoint strip_prefix (p inp : jsstring) : option jsstring :=
  match p, inp with
  | [], _ => Some inp
  | a :: p', b :: r => if a =? b then strip_prefix p' r else None
  | _ :: _, [] => None
  end.

(** The literals [true], [false] and [null]. *)
Definition parse_literal (inp : jsstring) : option (value * jsstring) :=
  match strip_prefix (js "true") inp with
  | Some r => Some (Bool true, r)
  | None =>
    match strip_prefix (js "false") inp with
    | Some r => Some (Bool false, r)
    | None =>
      match strip_prefix (js "null") inp with
      | Some r => Some (Null, r)
      | None => None
      end
    end
  end.

(** [expect c inp]: the next non-blank character is [c]; what follows
    it. *)
Definition expect (c : N) (inp : jsstring) : option jsstring :=
  match skip_ws inp with
  | c' :: r => if c' =? c then Some r else None
  | [] => None
  end.

(** A value, reading from the first non-blank character: an object
    after a left brace (123), an array after a left bracket (91), a
    string after a quotation mark (34), a number after a minus (45) or at
    a digit, else a literal.  Members are [key : value] separated by
    commas (44) up to the right brace (125); elements are values
    separated by commas up to the right bracket (93).  The fuel bounds the
    nesting of calls; each call consumes input first. *)
Fixpoint parse_value (fuel : nat) (inp : jsstring) : option (value * jsstring) :=
  match fuel with
  | O => None
  | S f =>
    match skip_ws inp with
    | [] => None
    | c :: r =>
      if c =? 123 then
        match expect 125 r with
        | Some r1 => Some (Obj [], r1)
        | None =>
          match parse_members f r with
          | Some (ms, r1) => Some (Obj ms, r1)
          | None => None
          end
        end
      else if c =? 91 then
        match expect 93 r with
        | Some r1 => Some (Arr [], r1)
        | None =>
          match parse_elements f r with
          | Some (vs, r1) => Some (Arr vs, r1)
          | None => None
          end
        end
      else if c =? 34 then
        match parse_chars r with
        | Some (s, r1) => Some (Str s, r1)
        | None => None
        end
      else if c =? 45 then parse_number true r
      else if is_digit c then parse_number false (c :: r)
      else parse_literal (c :: r)
    end
  end
with parse_members (fuel : nat) (inp : jsstring)
  : option (list (jsstring * value) * jsstring) :=
  match fuel with
  | O => None
  | S f =>
    match expect 34 inp with
    | Some r =>
      match parse_chars r with
      | Some (k, r1) =>
        match expect 58 r1 with
        | Some r2 =>
          match parse_value f r2 with
          | Some (v, r3) =>
            match expect 44 r3 with
            | Some r4 =>
              match parse_members f r4 with
              | Some (ms, r5) => Some ((k, v) :: ms, r5)
              | None => None
              end
            | None =>
              match expect 125 r3 with
              | Some r4 => Some ([(k, v)], r4)
              | None => None
              end
            end
          | None => None
          end
        | None => None
        end
      | None => None
      end
    | None => None
    end
  end
with parse_elements (fuel : nat) (inp : jsstring)
  : option (list value * jsstring) :=
  match fuel with
  | O => None
  | S f =>
    match parse_value f inp with
    | Some (v, r1) =>
      match expect 44 r1 with
      | Some r2 =>
        match parse_elements f r2 with
        | Some (vs, r3) => Some (v :: vs, r3)
        | None => None
        end
      | None =>
        match expect 93 r1 with
        | Some r2 => Some ([v], r2)
        | None => None
        end
      end
    | None => None
    end
  end.

(** [JSON.parse(text)]: one value, then only white space; [None] stands
    for the SyntaxError. *)
Definition parse (text : jsstring) : option value :=
  match parse_value (S (length text)) text with
  | Some (v, rest) =>
    match skip_ws rest with
    | [] => Some v
    | _ :: _ => None
    end
  | None => None
  end.

(** A successful parse consumes input, and needs no more fuel than the
    number of characters it consumes. *)
Definition fuel_bounded {A : Type} (parser : nat -> jsstring -> option (A * jsstring))
    (f : nat) : Prop :=
  forall (inp rest : jsstring) (a : A),
    parser f inp = Some (a, rest) ->
    (length rest < length inp)%nat
    /\ forall f' : nat, (length inp - length rest <= f')%nat ->
         parser f' inp = Some (a, rest).

(** *** Reading a parsed value *)

(** Property read with a later duplicate key overriding an earlier one. *)
Fixpoint lookup_last (k : jsstring) (m : list (jsstring * value)) : option value :=
  match m with
  | [] => None
  | (k', v) :: rest =>
    match lookup_last k rest with
    | Some v' => Some v'
    | None => if decide (k' = k) then Some v else None
    end
  end.

(** [v.k] for the keys [t] and [token], which no prototype defines:
    [None] is the TypeError of reading a property of [null];
    [Some None] is [undefined]. *)
Definition get (v : value) (k : jsstring) : option (option value) :=
  match v with
  | Null => None
  | Obj m => Some (lookup_last k m)
  | _ => Some None
  end.

(** The literal denotes a Number that is zero: no significant digit, or
    a magnitude of at most 2^-1075, which rounds to zero. *)
Definition numlit_is_zero (n : numlit) : bool :=
  let m := Z.of_N (digits_value (num_int n ++ num_frac n)) in
  let e := (num_exp n - Z.of_nat (length (num_frac n)))%Z in
  (m =? 0)%Z || ((e <? 0)%Z && (m * 2 ^ 1075 <=? 10 ^ (- e))%Z).

(** ToBoolean of a property read. *)
Definition truthy (v : option value) : bool :=
  match v with
  | None => false
  | Some Null => false
  | Some (Bool b) => b
  | Some (Num n) => negb (numlit_is_zero n)
  | Some (Str s) => match s with [] => false | _ => true end
  | Some (Arr _) => true
  | Some (Obj _) => true
  end.

End JSON.

(** ** The collection [rsvps] *)

Module Firestore.

(** [status]: invited | checked_in | cancelled. *)
Inductive Status := invited | checked_in | cancelled.

#[global] Instance Status_eq_dec : EqDecision Status.
Proof. solve_decision. Defined.

(** A document of the collection.  [checkedInAt] and [checkedInBy] are
    absent until a check-in writes them. *)
Record Rsvp := mkRsvp {
  t : jsstring;
  token : jsstring;
  name : jsstring;
  email : jsstring;
  phone : jsstring;
  coming : bool;
  status : Status;
  createdAt : Z;
  checkedInAt : option Z;
  checkedInBy : option jsstring
}.

(** Documents by id. *)
Abbreviation Store := (gmap jsstring Rsvp).

(** What a rejected promise or a [throw] carries. *)
Inductive Error :=
| Thrown (msg : jsstring)      (* new Error(msg) of this code *)
| StoreFault (msg : jsstring)  (* a Firestore call rejects *)
| TypeFault (msg : jsstring)   (* a TypeError of the runtime or a library *)
| CallbackFault (msg : jsstring).
                               (* an exception that a callback of the parent
                                  throws; [msg] is what its [message] renders *)

Definition message (e : Error) : jsstring :=
  match e with
  | Thrown m => m
  | StoreFault m => m
  | TypeFault m => m
  | CallbackFault m => m
  end.

(** [setDoc(doc(db, "rsvps", id), data)], no merge option: the document
    is created, or replaced when it exists. *)
Definition setDoc (id : jsstring) (data : Rsvp) (db : Store) : Store :=
  <[id := data]> db.

(** [getDoc(ref)]: the snapshot; [None] when [exists()] is false. *)
Definition getDoc (id : jsstring) (db : Store) : option Rsvp := db !! id.

(** [updateDoc(ref, fields)]: the fields are merged into the existing
    document; a missing document rejects. *)
Definition updateDoc (id : jsstring) (fields : Rsvp -> Rsvp) (db : Store)
  : option Store :=
  match db !! id with
  | Some cur => Some (<[id := fields cur]> db)
  | None => None
  end.

End Firestore.

Module Generator.

(** ** makeToken (generator page, lines 24-30) *)

Definition alphabet : jsstring :=
  js "0123456789abcdefghijklmnopqrstuvwxyzABCDEFGHIJKLMNOPQRSTUVWXYZ".

(** The entropy source is a stream of bytes, [rng i] being the byte
    that [crypto.getRandomValues] writes at index [i] of the array. *)
Definition randomBytes (rng : nat -> byte) (len : nat) : list byte :=
  map rng (seq 0 len).


(** [alphabet[i]] as [join] sees it: an index out of range reads
    [undefined], which [join] renders as the empty string. *)
Definition charAt (s : jsstring) (i : N) : jsstring :=
  match s !! N.to_nat i with
  | Some c => [c]
  | None => []
  end.

(** [Array.from(bytes, b => alphabet[b % alphabet.length]).join("")]. *)
Definition tokenOf (bytes : list byte) : jsstring :=
  concat (map (fun b => charAt alphabet (Byte.to_N b mod N.of_nat (length alphabet))) bytes).


(** The string that a call [makeToken(len)] returns, for a length within
    the quota: the token over the bytes that [getRandomValues] wrote. *)
Definition makeToken (rng : nat -> byte) (len : option nat) : jsstring :=
  tokenOf (randomBytes rng (default 16%nat len)).

(** The character class [0-9a-zA-Z], by code unit. *)
Definition is_alnum (c : N) : bool :=
  ((48 <=? c) && (c <=? 57)) || ((97 <=? c) && (c <=? 122)) || ((65 <=? c) && (c <=? 90)).

(** ** The form (generator page, lines 6-21 and 40-51) *)

Record FormData := mkFormData {
  f_name : jsstring;
  f_email : jsstring;
  f_phone : jsstring;
  confirmComing : bool
}.

Definition initialData : FormData := mkFormData [] [] [] false.

(** White space of [trim] and of the class [\s]. *)
Definition is_space (c : N) : bool :=
  ((9 <=? c) && (c <=? 13)) || (c =? 32) || (c =? 160) || (c =? 5760)
  || ((8192 <=? c) && (c <=? 8202)) || (c =? 8232) || (c =? 8233)
  || (c =? 8239) || (c =? 8287) || (c =? 12288) || (c =? 65279).

Fixpoint trimStart (s : jsstring) : jsstring :=
  match s with
  | c :: r => if is_space c then trimStart r else s
  | [] => []
  end.

Definition trim (s : jsstring) : jsstring :=
  rev (trimStart (rev (trimStart s))).

(** The class [[^\s@]]. *)
Definition email_atom (c : N) : bool := negb (is_space c) && negb (c =? 64).

Fixpoint span_atoms (s : jsstring) : jsstring * jsstring :=
  match s with
  | c :: r =>
    if email_atom c then let '(a, rest) := span_atoms r in (c :: a, rest)
    else ([], s)
  | [] => ([], [])
  end.

(** [/^[^\s@]+@[^\s@]+\.[^\s@]+$/]: atoms, an at sign, then atoms with a
    dot that is neither their first nor their last character. *)
Definition emailOk (v : jsstring) : bool :=
  match span_atoms v with
  | (_ :: _, 64 :: d) =>
    forallb email_atom d
    && match d with
       | _ :: tl => existsb (N.eqb 46) (removelast tl)
       | [] => false
       end
  | _ => false
  end.

(** [/^[0-9+\-\s]{7,15}$/]. *)
Definition phoneOk (v : jsstring) : bool :=
  (7 <=? length v)%nat && (length v <=? 15)%nat
  && forallb (fun c => ((48 <=? c) && (c <=? 57)) || (c =? 43) || (c =? 45) || is_space c) v.

Inductive Field := Fname | Femail | Fphone | FconfirmComing.

(** The [errors] object: the keys that are set, with their messages. *)
Definition errors (data : FormData) : list (Field * jsstring) :=
  (match trim (f_name data) with
   | [] => [(Fname, js "Name is required.")]
   | _ => []
   end)
  ++ (match trim (f_email data) with
      | [] => [(Femail, js "Email is required.")]
      | _ => if emailOk (f_email data) then [] else [(Femail, js "Enter a valid email.")]
      end)
  ++ (match trim (f_phone data) with
      | [] => [(Fphone, js "Phone is required.")]
      | _ => if phoneOk (f_phone data) then [] else [(Fphone, js "Enter a valid phone.")]
      end)
  ++ (if confirmComing data then []
      else [(FconfirmComing, js "Please confirm if you're coming.")]).

Definition isValid (data : FormData) : bool :=
  match errors data with
  | [] => true
  | _ :: _ => false
  end.

(** ** handleSubmit (generator page, lines 73-127) *)

Record State := mkState {
  data : FormData;
  touched : list Field;
  qrUrl : option jsstring;
  isGenerating : bool;
  lastToken : option jsstring;
  message : option jsstring
}.

(** What the world supplies to one submission: the random bytes, the
    server's clock for [serverTimestamp()], whether [setDoc] rejects, and
    the renderer [QRCode.toDataURL] ([None]: it rejects). *)
Record Env := mkEnv {
  rng : nat -> byte;
  serverTime : Z;
  setDoc_fault : option jsstring;
  toDataURL : jsstring -> option jsstring
}.

(** The record literal of step 2. *)
Definition newRecord (token : jsstring) (data : FormData) (created : Z) : Firestore.Rsvp :=
  {| Firestore.t := js "rsvp";
     Firestore.token := token;
     Firestore.name := trim (f_name data);
     Firestore.email := trim (f_email data);
     Firestore.phone := trim (f_phone data);
     Firestore.coming := confirmComing data;
     Firestore.status := Firestore.invited;
     Firestore.createdAt := created;
     Firestore.checkedInAt := None;
     Firestore.checkedInBy := None |}.

(** The payload of step 3. *)
Definition payloadOf (record : Firestore.Rsvp) : jsstring :=
  JSON.stringify
    [ (js "t", JSON.PStr (js "rsvp"));
      (js "token", JSON.PStr (Firestore.token record));
      (js "name", JSON.PStr (Firestore.name record));
      (js "email", JSON.PStr (Firestore.email record));
      (js "phone", JSON.PStr (Firestore.phone record));
      (js "coming", JSON.PBool (Firestore.coming record)) ].

(** What the scanner reads off the payload of a record. *)
Definition scanned (record : Firestore.Rsvp) : JSON.value :=
  JSON.Obj
    [ (js "t", JSON.Str (js "rsvp"));
      (js "token", JSON.Str (Firestore.token record));
      (js "name", JSON.Str (Firestore.name record));
      (js "email", JSON.Str (Firestore.email record));
      (js "phone", JSON.Str (Firestore.phone record));
      (js "coming", JSON.Bool (Firestore.coming record)) ].

Definition failed (st : State) : State :=
  mkState (data st) (touched st) (qrUrl st) false (lastToken st)
    (Some (js "Failed to generate QR. Please try again.")).

Definition handleSubmit (env : Env) (st : State) (db : Firestore.Store)
  : State * Firestore.Store :=
  let st := mkState (data st) [Fname; Femail; Fphone] (qrUrl st)
              (isGenerating st) (lastToken st) None in
  if negb (isValid (data st)) then (st, db)
  else
    let token := makeToken (rng env) (Some 16%nat) in
    let record := newRecord token (data st) (serverTime env) in
    match setDoc_fault env with
    | Some _ => (failed st, db)
    | None =>
      let db := Firestore.setDoc token record db in
      match toDataURL env (payloadOf record) with
      | None => (failed st, db)
      | Some url =>
        (mkState (data st) (touched st) (Some url) false (Some token)
           (Some (js "RSVP saved and QR generated.")), db)
      end
    end.

(** The declarative reading of the e-mail pattern: a local part, an at
    sign (64), a domain part, a dot (46), a last part; the three parts
    non-empty and free of white space and of at signs. *)
Definition email_shape (v : jsstring) : Prop :=
  exists a b c : jsstring,
    v = a ++ 64 :: b ++ 46 :: c
    /\ a <> [] /\ b <> [] /\ c <> []
    /\ forallb email_atom a = true
    /\ forallb email_atom b = true
    /\ forallb email_atom c = true.

(** resetAll (generator page, lines 65-71): every state variable but
    [isGenerating] goes back to its initial value. *)
Definition resetAll (st : State) : State :=
  mkState initialData [] None (isGenerating st) None None.

(** The 256 values a byte of the random source can take. *)
Definition all_bytes : list byte :=
  flat_map (fun n => match Byte.of_N (N.of_nat n) with
                     | Some b => [b]
                     | None => []
                     end) (seq 0 256).

(** The number of byte values that [makeToken] turns into the symbol
    [c]. *)
Definition preimages (c : N) : nat :=
  length (filter (fun b => bool_decide (makeToken (fun _ => b) (Some 1%nat) = [c]))
            all_bytes).

(** The characters that the pattern of [phoneOk] admits. *)
Definition phone_char (c : N) : bool :=
  ((48 <=? c) && (c <=? 57)) || (c =? 43) || (c =? 45) || is_space c.

End Generator.

(** A sequence of decode hits [(time, text)] fed to a callback: the final
    component and the calls of each hit. *)
Fixpoint feed {S C : Type} (cb : Z -> option jsstring -> S -> S * list C)
    (hits : list (Z * jsstring)) (sc : S) : S * list (list C) :=
  match hits with
  | [] => (sc, [])
  | (z, text) :: rest =>
    let '(sc1, calls) := cb z (Some text) sc in
    let '(sc2, more) := feed cb rest sc1 in
    (sc2, calls :: more)
  end.

(** The times of the hits of a sequence that a callback acted on (made
    at least one call for). *)
Fixpoint accepted {S C : Type} (cb : Z -> option jsstring -> S -> S * list C)
    (hits : list (Z * jsstring)) (sc : S) : list Z :=
  match hits with
  | [] => []
  | (z, text) :: rest =>
    let '(sc1, calls) := cb z (Some text) sc in
    match calls with
    | [] => accepted cb rest sc1
    | _ :: _ => z :: accepted cb rest sc1
    end
  end.

(** Each time of the list is at least [gap] after the one before it. *)
Fixpoint spaced (gap : Z) (l : list Z) : Prop :=
  match l with
  | a :: (b :: _) as tl => (a + gap <= b)%Z /\ spaced gap tl
  | _ => True
  end.

(** ** The check-in scanner *)

Module Scanner.
Import Firestore (Store, Rsvp, Error, Thrown, StoreFault, TypeFault, CallbackFault,
                  getDoc, updateDoc, message).

(** The props.  Of the parent's [onResult] the component sees only
    whether a call returns: [onResult_fault text] is [None] when the call
    [onResult?.(text)] returns (or no callback was passed), and [Some m]
    when it throws an exception whose message renders as [m];
    [onResult_again text] is the same for a second call with the same
    text right after the first has thrown. *)
Record Props := mkProps {
  hint : jsstring;
  cooldownMs : Z;
  onResult_fault : jsstring -> option jsstring;
  onResult_again : jsstring -> option jsstring
}.

(** The defaults of the destructured parameters; no [onResult]. *)
Definition defaultProps : Props :=
  mkProps (js "Point the camera at a QR code") 200 (fun _ => None) (fun _ => None).

(** The component: its four state variables and the ref
    [nextAllowedRef]. *)
Record Scanner := mkScanner {
  running : bool;
  status : jsstring;
  lastScanResult : option jsstring;
  isProcessing : bool;
  nextAllowedRef : Z
}.

Definition initial : Scanner := mkScanner false (js "Idle") None false 0.

Definition setStatus (s : jsstring) (sc : Scanner) : Scanner :=
  mkScanner (running sc) s (lastScanResult sc) (isProcessing sc) (nextAllowedRef sc).

Definition setIsProcessing (b : bool) (sc : Scanner) : Scanner :=
  mkScanner (running sc) (status sc) (lastScanResult sc) b (nextAllowedRef sc).

Definition setLastScanResult (r : option jsstring) (sc : Scanner) : Scanner :=
  mkScanner (running sc) (status sc) r (isProcessing sc) (nextAllowedRef sc).

Definition setRunning (b : bool) (sc : Scanner) : Scanner :=
  mkScanner b (status sc) (lastScanResult sc) (isProcessing sc) (nextAllowedRef sc).

Definition setNextAllowed (z : Z) (sc : Scanner) : Scanner :=
  mkScanner (running sc) (status sc) (lastScanResult sc) (isProcessing sc) z.

(** How the camera request can fail: by the [name] of the exception. *)
Inductive CameraFault := NotAllowedError | NotFoundError | SecurityError | OtherFault.

(** The calls that leave the component, in the order they are made. *)
Inductive Call :=
| OnResult (text : jsstring)
    (* onResult?.(text) *)
| OnResultCheckedIn (qrData : JSON.value)
    (* onResult?.(JSON.stringify({...qrData, status: "checked_in", checkedInAt})) *)
| OnError (e : Error)
    (* onError?.(error) of handleCheckIn *)
| OnCameraError (e : CameraFault)
    (* onError?.(e) of start *)
| HandleCheckIn (qrData : JSON.value)
    (* handleCheckIn(qrData), not awaited *)
| StatusResetTimer
    (* setTimeout(..., 3000) *)
| Escapes (msg : jsstring).
    (* an exception of the parent's callback leaves the decode callback *)

(** What the world supplies to one run of [handleCheckIn]: whether the
    read or the write rejects (with which message), the message of a
    TypeError (reading [token] off [null], or [doc] on a token that is
    not a string), the message of the rejection of [updateDoc] on a
    missing document, the writes of
    other clients that reach the store between the read and the write,
    the clock read by [new Date()], and what the parent's [onResult] does
    with the report of the check-in of a payload: [None] when the call
    returns (or no callback was passed), [Some m] when it throws an
    exception whose message renders as [m]. *)
Record Env := mkEnv {
  getDoc_fault : option jsstring;
  updateDoc_fault : option jsstring;
  typeError_msg : jsstring;
  missing_msg : jsstring;
  concurrent : Store -> Store;
  now : Z;
  onResult_report : JSON.value -> option jsstring
}.

(** A run at time [z] that the store does not disturb: no call is
    rejected and no other client writes; [cb] is what the parent's
    [onResult] does with the report. *)
Definition undisturbed (z : Z) (cb : JSON.value -> option jsstring) : Env :=
  mkEnv None None [] [] (fun db => db) z cb.

(** An undisturbed run at time [z] in which the parent's callback returns
    as well. *)
Definition quiet (z : Z) : Env := undisturbed z (fun _ => None).

(** The field set of the [updateDoc] call (lines 63-68). *)
Definition checkInFields (at_ : Z) (cur : Rsvp) : Rsvp :=
  {| Firestore.t := Firestore.t cur;
     Firestore.token := Firestore.token cur;
     Firestore.name := Firestore.name cur;
     Firestore.email := Firestore.email cur;
     Firestore.phone := Firestore.phone cur;
     Firestore.coming := true;
     Firestore.status := Firestore.checked_in;
     Firestore.createdAt := Firestore.createdAt cur;
     Firestore.checkedInAt := Some at_;
     Firestore.checkedInBy := Some (js "scanner") |}.

(** The status lines of lines 58, 70 and 82. *)
Definition alreadyStatus (rsvpData : Rsvp) : jsstring :=
  Firestore.name rsvpData ++ js " is already checked in!".

Definition successStatus (rsvpData : Rsvp) : jsstring :=
  9989 :: 32 :: Firestore.name rsvpData ++ js " checked in successfully!".

Definition failedStatus (e : Error) : jsstring :=
  10060 :: js " Check-in failed: " ++ message e.

(** How the [try] block of [handleCheckIn] ends. *)
Inductive Completion :=
| CheckedIn (rsvpData : Rsvp)       (* line 70 is reached *)
| AlreadyIn (rsvpData : Rsvp)       (* the return of line 59 *)
| Raised (e : Error).               (* the catch block runs *)

(** The [try] block of [handleCheckIn] against the store
    (lines 40-68).  A token that is a string is taken as the id of the
    document: that is what [doc(db, "rsvps", token)] makes of a token
    without a solidus, as every token that [makeToken] issues is; a token
    with a solidus is a path to [doc], which this definition does not
    follow. *)
Definition checkIn (env : Env) (qrData : JSON.value) (db : Store)
  : Store * Completion :=
  match JSON.get qrData (js "token") with
  | None => (db, Raised (TypeFault (typeError_msg env)))
  | Some tok =>
    if negb (JSON.truthy tok)
    then (db, Raised (Thrown (js "Invalid QR code: No token found")))
    else
      match tok with
      | Some (JSON.Str id) =>
        match getDoc_fault env with
        | Some m => (db, Raised (StoreFault m))
        | None =>
          match getDoc id db with
          | None => (db, Raised (Thrown (js "RSVP not found")))
          | Some rsvpData =>
            if decide (Firestore.status rsvpData = Firestore.checked_in)
            then (db, AlreadyIn rsvpData)
            else
              let db := concurrent env db in
              match updateDoc_fault env with
              | Some m => (db, Raised (StoreFault m))
              | None =>
                match updateDoc id (checkInFields (now env)) db with
                | Some db' => (db', CheckedIn rsvpData)
                | None => (db, Raised (StoreFault (missing_msg env)))
                end
              end
          end
        end
      | _ => (db, Raised (TypeFault (typeError_msg env)))
      end
  end.

(** The component while a run of [handleCheckIn] is under way (lines
    38-39): the busy flag set, the first status shown. *)
Definition beginCheckIn (sc : Scanner) : Scanner :=
  setStatus (js "Processing check-in...") (setIsProcessing true sc).

(** Lines 70-71: the success status and the last scan result. *)
Definition welcome (rsvpData : Rsvp) (sc : Scanner) : Scanner :=
  setLastScanResult
    (Some (js "Welcome " ++ Firestore.name rsvpData
           ++ js "! Email: " ++ Firestore.email rsvpData))
    (setStatus (successStatus rsvpData) sc).

(** handleCheckIn (lines 36-94): the busy flag and the first status,
    the [try] block, then the status of its completion, and [finally].
    After the write the success status and the last scan result are set
    and [onResult] is called, still inside the [try] block: when that call
    throws, the catch block runs although the write has landed.  (An
    exception of [onError] leaves the catch block after the status is set;
    [finally] runs all the same, and the promise of the run, which nobody
    awaits, rejects.) *)
Definition handleCheckIn (env : Env) (qrData : JSON.value)
    (sc : Scanner) (db : Store) : Scanner * Store * list Call :=
  let sc := beginCheckIn sc in
  let '(db, c) := checkIn env qrData db in
  let '(sc, calls) :=
    match c with
    | AlreadyIn rsvpData =>
      (setStatus (alreadyStatus rsvpData) sc, [])
    | CheckedIn rsvpData =>
      let sc := welcome rsvpData sc in
      match onResult_report env qrData with
      | None => (sc, [OnResultCheckedIn qrData])
      | Some m =>
        (setStatus (failedStatus (CallbackFault m)) sc,
         [OnResultCheckedIn qrData; OnError (CallbackFault m)])
      end
    | Raised e =>
      (setStatus (failedStatus e) sc, [OnError e])
    end in
  (setIsProcessing false sc, db, calls ++ [StatusResetTimer]).

(** A call as it would be for the payload [q]: the report of a check-in
    carries the payload, every other call is as it is. *)
Definition retarget (q : JSON.value) (c : Call) : Call :=
  match c with
  | OnResultCheckedIn _ => OnResultCheckedIn q
  | _ => c
  end.

(** The status line that a run leaves. *)
Definition out_status (out : Scanner * Store * list Call) : jsstring :=
  status out.1.1.

(** The body of the timer of line 88, with the [running] it closed
    over. *)
Definition statusReset (p : Props) (running_seen : bool) (sc : Scanner) : Scanner :=
  if running_seen then setStatus (hint p) sc else sc.

(** The branches of lines 127-142. *)
Inductive Classified :=
| Rsvp_code (qrData : JSON.value)   (* handleCheckIn(qrData) *)
| Invalid_code                      (* "Invalid RSVP QR code" *)
| Foreign_code.                     (* the catch block: "Not an RSVP QR code" *)

(** [qrData.t === "rsvp"]. *)
Definition is_rsvp (v : option JSON.value) : bool :=
  match v with
  | Some (JSON.Str s) => bool_decide (s = js "rsvp")
  | _ => false
  end.

(** Lines 127-142: [JSON.parse], then the test
    [qrData.t === "rsvp" && qrData.token]; a SyntaxError of the parse and
    a TypeError of the property read both land in the catch block. *)
Definition classify (text : jsstring) : Classified :=
  match JSON.parse text with
  | None => Foreign_code
  | Some qrData =>
    match JSON.get qrData (js "t"), JSON.get qrData (js "token") with
    | Some kind, Some tok =>
      if is_rsvp kind && JSON.truthy tok then Rsvp_code qrData else Invalid_code
    | _, _ => Foreign_code
    end
  end.

(** The status lines of lines 135 and 140. *)
Definition invalidStatus : jsstring := 10060 :: js " Invalid RSVP QR code".
Definition foreignStatus : jsstring := 10060 :: js " Not an RSVP QR code".

(** A call [onResult?.(text)] outside any [try] block that would catch
    it: the call, and its exception leaving the callback when it
    throws. *)
Definition uncaught (text : jsstring) (fault : option jsstring) : list Call :=
  OnResult text ::
  match fault with
  | None => []
  | Some m => [Escapes m]
  end.

(** Lines 127-142, on the text of a hit that has passed the gate.  Both
    calls of [onResult] sit inside the [try] statement: one that throws on
    the invalid branch lands in the catch block, which sets the foreign
    status and calls [onResult] again; an exception thrown there, or on
    the foreign branch, leaves the callback. *)
Definition dispatch (p : Props) (text : jsstring) (sc : Scanner)
  : Scanner * list Call :=
  match classify text with
  | Rsvp_code qrData => (sc, [HandleCheckIn qrData])
  | Invalid_code =>
    match onResult_fault p text with
    | None => (setStatus invalidStatus sc, [OnResult text])
    | Some _ =>
      (setStatus foreignStatus sc,
       OnResult text :: uncaught text (onResult_again p text))
    end
  | Foreign_code =>
    (setStatus foreignStatus sc, uncaught text (onResult_fault p text))
  end.

(** The decode callback (lines 119-146).  [isProcessing_seen] is the
    [isProcessing] that the closure captured when [start] ran. *)
Definition decodeCallback (p : Props) (isProcessing_seen : bool)
    (now : Z) (result : option jsstring) (sc : Scanner) : Scanner * list Call :=
  match result with
  | Some text =>
    if negb isProcessing_seen then
      if (now <? nextAllowedRef sc)%Z then (sc, [])
      else dispatch p text (setNextAllowed (now + cooldownMs p) sc)
    else (sc, [])
  | None => (sc, [])
  end.

(** start (lines 96-164): on success the callback is registered with the
    [isProcessing] of the render that created this [start]. *)
Definition start (p : Props) (camera : option CameraFault) (sc : Scanner)
  : Scanner * option (Z -> option jsstring -> Scanner -> Scanner * list Call) * list Call :=
  match camera with
  | None =>
    (setStatus (hint p) (setRunning true sc),
     Some (decodeCallback p (isProcessing sc)), [])
  | Some e =>
    let msg :=
      match e with
      | NotAllowedError => js "Camera permission denied. Allow camera access and retry."
      | NotFoundError => js "No camera found. Connect a webcam or try another device."
      | SecurityError => js "Use HTTPS or http://localhost in development."
      | OtherFault => js "Unable to start camera."
      end in
    (setStatus msg (setRunning false sc), None, [OnCameraError e])
  end.

(** stop (lines 166-172). *)
Definition stop (sc : Scanner) : Scanner :=
  setLastScanResult None (setStatus (js "Stopped") (setRunning false sc)).

(** A document as this code writes it under the id [k]: its token is
    its id, its kind tag is "rsvp", and once its status is checked_in it
    carries a check-in time, the writer "scanner" and coming set. *)
Definition well_formed (k : jsstring) (r : Rsvp) : Prop :=
  Firestore.token r = k
  /\ Firestore.t r = js "rsvp"
  /\ (Firestore.status r = Firestore.checked_in ->
       Firestore.checkedInAt r <> None
       /\ Firestore.checkedInBy r = Some (js "scanner")
       /\ Firestore.coming r = true)
  /\ (Firestore.status r = Firestore.invited -> Firestore.checkedInAt r = None).

Definition well_formed_store (db : Store) : Prop :=
  forall (k : jsstring) (r : Rsvp), db !! k = Some r -> well_formed k r.

(** Check-ins one after the other, each run to completion before the
    next starts: the store that they leave. *)
Fixpoint checkIns (runs : list (Env * JSON.value)) (sc : Scanner) (db : Store)
  : Scanner * Store :=
  match runs with
  | [] => (sc, db)
  | (env, qrData) :: rest =>
    let out := handleCheckIn env qrData sc db in
    checkIns rest out.1.1 out.1.2
  end.

End Scanner.

(** ** The plain scanner *)

Module PlainScanner.

Record Scanner := mkScanner {
  running : bool;
  status : jsstring;
  nextAllowedRef : Z
}.

Definition initial : Scanner := mkScanner false (js "Idle") 0.

(** The default of [cooldownMs]. *)
Definition defaultCooldownMs : Z := 500.

(** The decode callback (lines 52-65); the only call that leaves it is
    [onResult(text)], and the status is the one shown once that call has
    returned. *)
Definition decodeCallback (cooldownMs : Z) (now : Z) (result : option jsstring)
    (sc : Scanner) : Scanner * list jsstring :=
  match result with
  | Some text =>
    if (now <? nextAllowedRef sc)%Z then (sc, [])
    else
      (mkScanner (running sc)
         (js "Found code " ++ 8212 :: js " scanning continues" ++ [8230])
         (now + cooldownMs),
       [text])
  | None => (sc, [])
  end.

(** start (lines 29-83): on success the callback is registered and the
    hint shown; a failure of the camera request is shown by cause and
    passed to [onError]. *)
Definition start (hint : jsstring) (cooldownMs : Z)
    (camera : option Scanner.CameraFault) (sc : Scanner)
  : Scanner
    * option (Z -> option jsstring -> Scanner -> Scanner * list jsstring)
    * list Scanner.CameraFault :=
  match camera with
  | None =>
    (mkScanner true hint (nextAllowedRef sc), Some (decodeCallback cooldownMs), [])
  | Some e =>
    let msg :=
      match e with
      | Scanner.NotAllowedError =>
        js "Camera permission denied. Allow camera access and retry."
      | Scanner.NotFoundError =>
        js "No camera found. Connect a webcam or try another device."
      | Scanner.SecurityError => js "Use HTTPS or http://localhost in development."
      | Scanner.OtherFault => js "Unable to start camera."
      end in
    (mkScanner false msg (nextAllowedRef sc), None, [e])
  end.

(** stop (lines 85-90). *)
Definition stop (sc : Scanner) : Scanner :=
  mkScanner false (js "Stopped") (nextAllowedRef sc).

End PlainScanner.

(** ** Sample data *)

Module Sample.

Definition ana : Generator.FormData :=
  Generator.mkFormData (js "Ana") (js "a@x.com") (js "+1 5551234567") true.

Definition tokA : jsstring := js "aB3dE5gH7jK9mN1p".

(** Ana's record as registration stores it, created at time 100. *)
Definition recA : Firestore.Rsvp := Generator.newRecord tokA ana 100.

(** A second guest, registered at time 200. *)
Definition tokB : jsstring := js "Zy8xW6vU4tS2rQ0o".

Definition recB : Firestore.Rsvp :=
  Generator.newRecord tokB
    (Generator.mkFormData (js "Bo") (js "bo@y.org") (js "5550001") true) 200.

(** A scanned payload that names Ana's token. *)
Definition qrA : JSON.value :=
  JSON.Obj [(js "t", JSON.Str (js "rsvp")); (js "token", JSON.Str tokA)].

Definition dbA : Firestore.Store := {[ tokA := recA ]}.

(** What the scanner reads off Ana's artifact. *)
Definition payloadA : JSON.value :=
  JSON.Obj
    [ (js "t", JSON.Str (js "rsvp"));
      (js "token", JSON.Str tokA);
      (js "name", JSON.Str (js "Ana"));
      (js "email", JSON.Str (js "a@x.com"));
      (js "phone", JSON.Str (js "+1 5551234567"));
      (js "coming", JSON.Bool true) ].

(** A second station that checks the same token in at time 1000. *)
Definition otherStation (db : Firestore.Store) : Firestore.Store :=
  (Scanner.handleCheckIn (Scanner.quiet 1000) qrA Scanner.initial db).1.2.

(** A run at time 2000 whose read precedes, and whose write follows, the
    write of the second station. *)
Definition raced : Scanner.Env :=
  Scanner.mkEnv None None [] [] otherStation 2000 (fun _ => None).

(** The text of a code of another family. *)
Definition menuText : jsstring :=
  JSON.stringify [(js "t", JSON.PStr (js "menu")); (js "token", JSON.PStr (js "x"))].

(** The text of a code of kind "rsvp" whose token is the number 7:
    [{"t":"rsvp","token":7}]. *)
Definition numberToken : jsstring :=
  js "{" ++ JSON.QuoteJSONString (js "t") ++ js ":" ++ JSON.QuoteJSONString (js "rsvp")
  ++ js "," ++ JSON.QuoteJSONString (js "token") ++ js ":7}".

(** A guest registered earlier under the token that sixteen zero bytes
    spell, and already checked in. *)
Definition tok0 : jsstring := js "0000000000000000".

Definition bob : Firestore.Rsvp :=
  Scanner.checkInFields 50
    (Generator.newRecord tok0
       (Generator.mkFormData (js "Bob") (js "b@y.org") (js "5550000") true) 10).

Definition db0 : Firestore.Store := {[ tok0 := bob ]}.

(** A submission whose random bytes are all zero; the renderer answers
    [url], or rejects. *)
Definition zeros (render : option jsstring) : Generator.Env :=
  Generator.mkEnv (fun _ => x00) 100 None (fun _ => render).

Definition url : jsstring := js "data:image/png;base64,iVBORw0KGgo=".

Definition form : Generator.State :=
  Generator.mkState ana [] None false None None.

(** A run at time 9 whose write the store rejects. *)
Definition writeFails : Scanner.Env :=
  Scanner.mkEnv None (Some (js "unavailable")) [] [] (fun d => d) 9 (fun _ => None).

(** A submission whose store write is rejected. *)
Definition setFails : Generator.Env :=
  Generator.mkEnv (fun _ => x00) 100 (Some (js "unavailable")) (fun _ => Some url).

(** A parent whose [onResult] throws, on every call. *)
Definition throwingProps : Scanner.Props :=
  Scanner.mkProps (js "Point the camera at a QR code") 200
    (fun _ => Some (js "boom")) (fun _ => Some (js "boom")).

(** An undisturbed run at time [z] but for the parent's [onResult], which
    throws. *)
Definition throwing (z : Z) : Scanner.Env :=
  Scanner.undisturbed z (fun _ => Some (js "boom")).

End Sample.

(** * Properties *)

Section TokenGenerator.
Import Generator.

Lemma alphabet_length : length alphabet = 62%nat.
Proof. reflexivity. Qed.

Lemma alphabet_alnum : forallb is_alnum alphabet = true.
Proof. vm_compute. reflexivity. Qed.

Lemma charAt_alphabet (i : N) :
  i < 62 -> exists c, charAt alphabet i = [c] /\ alphabet !! N.to_nat i = Some c /\ is_alnum c = true.
Proof.
  intros Hi. unfold charAt.
  destruct (alphabet !! N.to_nat i) as [c|] eqn:E.
  - exists c. split; [reflexivity|]. split; [reflexivity|].
    pose proof alphabet_alnum as Ha. rewrite forallb_forall in Ha.
    apply Ha. apply list_elem_of_In. eapply list_elem_of_lookup_2. exact E.
  - apply lookup_ge_None in E. rewrite alphabet_length in E. lia.
Qed.

Lemma makeToken_bytes (bs : list byte) :
  Forall2 (fun b c => alphabet !! N.to_nat (Byte.to_N b mod 62) = Some c /\ is_alnum c = true)
    bs (tokenOf bs).
Proof.
  unfold tokenOf. rewrite alphabet_length. change (N.of_nat 62) with 62.
  induction bs as [|b bs IH]; cbn [map concat]; [constructor|].
  destruct (charAt_alphabet (Byte.to_N b mod 62)) as (c & Hc & Hl & Ha).
  { apply N.mod_lt. discriminate. }
  rewrite Hc. cbn [app]. constructor; [split; assumption|exact IH].
Qed.

Lemma randomBytes_length (rng : nat -> byte) (n : nat) :
  length (randomBytes rng n) = n.
Proof. unfold randomBytes. rewrite length_map. apply length_seq. Qed.

Lemma makeToken_length (rng : nat -> byte) (n : nat) :
  length (makeToken rng (Some n)) = n.
Proof.
  assert (H : length (randomBytes rng n) = length (makeToken rng (Some n))).
  { eapply Forall2_length. apply makeToken_bytes. }
  rewrite <- H. apply randomBytes_length.
Qed.





End TokenGenerator.


Section JsonRoundTrip.
Import JSON.

Lemma hexval_hexdigit (d : N) : d < 16 -> hexval (hexdigit d) = Some d.
Proof.
  intros Hd. unfold hexdigit, hexval.
  destruct (d <? 10) eqn:E.
  - apply N.ltb_lt in E.
    replace ((48 <=? 48 + d) && (48 + d <=? 57)) with true.
    + f_equal. lia.
    + symmetry. apply andb_true_iff. split; apply N.leb_le; lia.
  - apply N.ltb_ge in E.
    replace ((48 <=? 87 + d) && (87 + d <=? 57)) with false.
    + replace ((97 <=? 87 + d) && (87 + d <=? 102)) with true.
      * f_equal. lia.
      * symmetry. apply andb_true_iff. split; apply N.leb_le; lia.
    + symmetry. apply andb_false_iff. right. apply N.leb_gt. lia.
Qed.

Lemma hex4_unicode (c : N) :
  c < 65536 ->
  hex4 (hexdigit (c / 4096 mod 16)) (hexdigit (c / 256 mod 16))
       (hexdigit (c / 16 mod 16)) (hexdigit (c mod 16)) = Some c.
Proof.
  intros Hc. unfold hex4.
  rewrite !hexval_hexdigit by (apply N.mod_lt; discriminate).
  f_equal.
  pose proof (N.div_mod c 16 ltac:(discriminate)) as H0.
  pose proof (N.div_mod (c / 16) 16 ltac:(discriminate)) as H1.
  pose proof (N.div_mod (c / 256) 16 ltac:(discriminate)) as H2.
  rewrite N.Div0.div_div in H1, H2.
  change (16 * 16) with 256 in H1. change (256 * 16) with 4096 in H2.
  assert (H3 : c / 4096 < 16) by (apply N.Div0.div_lt_upper_bound; exact Hc).
  rewrite (N.mod_small (c / 4096) 16 H3).
  lia.
Qed.

(** Reading back an escape [\uXXXX]. *)
Lemma parse_chars_unicode (c : N) (r : jsstring) :
  c < 65536 ->
  parse_chars (unicode_escape c ++ r) =
  match parse_chars r with
  | Some (s, rest) => Some (c :: s, rest)
  | None => None
  end.
Proof.
  intros Hc. unfold unicode_escape. cbn [app parse_chars].
  change (92 =? 34) with false. change (92 =? 92) with true.
  change (117 =? 117) with true. cbv iota.
  rewrite hex4_unicode by exact Hc. reflexivity.
Qed.

(** Reading back a code unit that was written as it is. *)
Lemma parse_chars_raw (c : N) (r : jsstring) :
  (c =? 34) = false -> (c =? 92) = false -> (c <? 32) = false ->
  parse_chars (c :: r) =
  match parse_chars r with
  | Some (s, rest) => Some (c :: s, rest)
  | None => None
  end.
Proof. intros H1 H2 H3. cbn [parse_chars]. rewrite H1, H2, H3. reflexivity. Qed.

Lemma parse_chars_short (e u : N) (r : jsstring) :
  (e =? 117) = false -> unescape e = Some u ->
  parse_chars (92 :: e :: r) =
  match parse_chars r with
  | Some (s, rest) => Some (u :: s, rest)
  | None => None
  end.
Proof.
  intros H1 H2. cbn [parse_chars].
  change (92 =? 34) with false. change (92 =? 92) with true. cbv iota.
  rewrite H1, H2. reflexivity.
Qed.

Lemma surrogate_bounds (c : N) :
  is_high c = true \/ is_low c = true ->
  c < 65536 /\ (c =? 34) = false /\ (c =? 92) = false /\ (c <? 32) = false.
Proof.
  unfold is_high, is_low. intros [H|H]; apply andb_true_iff in H; destruct H as [H1 H2];
    apply N.leb_le in H1, H2;
    (split; [lia|]); (split; [apply N.eqb_neq; lia|]);
    (split; [apply N.eqb_neq; lia|]); apply N.ltb_ge; lia.
Qed.

(** The characters that QuoteJSONString writes, followed by the closing
    quote, read back as the string itself. *)
Lemma parse_quote_chars_le (n : nat) :
  forall (s rest : jsstring), (length s <= n)%nat ->
  parse_chars (quote_chars s ++ 34 :: rest) = Some (s, rest).
Proof.
  induction n as [|n IH]; intros s rest Hlen.
  - destruct s; [reflexivity | simpl in Hlen; lia].
  - destruct s as [|c r]; [reflexivity|].
    assert (Hr : parse_chars (quote_chars r ++ 34 :: rest) = Some (r, rest))
      by (apply IH; simpl in Hlen; lia).
    cbn [quote_chars].
    destruct (c =? 8) eqn:E8.
    { apply N.eqb_eq in E8. subst c. cbn [app].
      rewrite (parse_chars_short 98 8) by reflexivity. rewrite Hr. reflexivity. }
    destruct (c =? 9) eqn:E9.
    { apply N.eqb_eq in E9. subst c. cbn [app].
      rewrite (parse_chars_short 116 9) by reflexivity. rewrite Hr. reflexivity. }
    destruct (c =? 10) eqn:E10.
    { apply N.eqb_eq in E10. subst c. cbn [app].
      rewrite (parse_chars_short 110 10) by reflexivity. rewrite Hr. reflexivity. }
    destruct (c =? 12) eqn:E12.
    { apply N.eqb_eq in E12. subst c. cbn [app].
      rewrite (parse_chars_short 102 12) by reflexivity. rewrite Hr. reflexivity. }
    destruct (c =? 13) eqn:E13.
    { apply N.eqb_eq in E13. subst c. cbn [app].
      rewrite (parse_chars_short 114 13) by reflexivity. rewrite Hr. reflexivity. }
    destruct (c =? 34) eqn:E34.
    { apply N.eqb_eq in E34. subst c. cbn [app].
      rewrite (parse_chars_short 34 34) by reflexivity. rewrite Hr. reflexivity. }
    destruct (c =? 92) eqn:E92.
    { apply N.eqb_eq in E92. subst c. cbn [app].
      rewrite (parse_chars_short 92 92) by reflexivity. rewrite Hr. reflexivity. }
    destruct (c <? 32) eqn:E32.
    { apply N.ltb_lt in E32. rewrite <- app_assoc.
      rewrite parse_chars_unicode by lia. rewrite Hr. reflexivity. }
    destruct (is_high c) eqn:Eh.
    { destruct (surrogate_bounds c (or_introl Eh)) as (Hb & _).
      destruct r as [|l r'].
      - unfold app at 1. rewrite parse_chars_unicode by exact Hb. reflexivity.
      - destruct (is_low l) eqn:El.
        + destruct (surrogate_bounds l (or_intror El)) as (_ & L1 & L2 & L3).
          cbn [app]. rewrite parse_chars_raw by assumption.
          rewrite parse_chars_raw by assumption.
          rewrite IH by (simpl in Hlen; lia). reflexivity.
        + rewrite <- app_assoc. rewrite parse_chars_unicode by exact Hb.
          rewrite Hr. reflexivity. }
    destruct (is_low c) eqn:El.
    { destruct (surrogate_bounds c (or_intror El)) as (Hb & _).
      rewrite <- app_assoc. rewrite parse_chars_unicode by exact Hb.
      rewrite Hr. reflexivity. }
    cbn [app]. rewrite parse_chars_raw by assumption. rewrite Hr. reflexivity.
Qed.

Lemma parse_quote_chars (s rest : jsstring) :
  parse_chars (quote_chars s ++ 34 :: rest) = Some (s, rest).
Proof. apply (parse_quote_chars_le (length s)). reflexivity. Qed.


Lemma parse_value_prim (f : nat) (v : prim) (rest : jsstring) :
  parse_value (S f) (SerializeJSONProperty v ++ rest) = Some (value_of_prim v, rest).
Proof.
  destruct v as [s|[|]].
  - cbn [SerializeJSONProperty QuoteJSONString app parse_value skip_ws].
    change (is_ws 34) with false. cbv iota.
    change (34 =? 123) with false. change (34 =? 91) with false.
    change (34 =? 34) with true. cbv iota.
    rewrite <- app_assoc. cbn [app]. rewrite parse_quote_chars. reflexivity.
  - reflexivity.
  - reflexivity.
Qed.

Lemma member_text_head (kv : jsstring * prim) (rest : jsstring) :
  member_text kv ++ rest =
  34 :: quote_chars (fst kv) ++ 34 :: 58 :: SerializeJSONProperty (snd kv) ++ rest.
Proof.
  unfold member_text, QuoteJSONString. cbn [app].
  rewrite <- !app_assoc. reflexivity.
Qed.

Lemma parse_member (f : nat) (kv : jsstring * prim) (rest : jsstring) :
  parse_members (S (S f)) (member_text kv ++ rest) =
  match expect 44 rest with
  | Some r4 =>
    match parse_members (S f) r4 with
    | Some (ms, r5) => Some (member_value kv :: ms, r5)
    | None => None
    end
  | None =>
    match expect 125 rest with
    | Some r4 => Some ([member_value kv], r4)
    | None => None
    end
  end.
Proof.
  rewrite member_text_head.
  cbn [parse_members]. change (expect 34 (34 :: ?x)) with (Some x). cbv iota.
  rewrite parse_quote_chars.
  change (expect 58 (58 :: ?x)) with (Some x). cbv iota.
  rewrite parse_value_prim. reflexivity.
Qed.

Lemma parse_members_text (props : list (jsstring * prim)) :
  props <> [] ->
  forall (f : nat) (rest : jsstring), (length props < f)%nat ->
  parse_members f (members_text props ++ 125 :: rest) = Some (map member_value props, rest).
Proof.
  induction props as [|kv props IH]; [congruence|]. intros _ f rest Hf.
  destruct f as [|[|f]]; [simpl in Hf; lia | simpl in Hf; lia |].
  destruct props as [|kv' props].
  - cbn [members_text]. rewrite parse_member. reflexivity.
  - change (members_text (kv :: kv' :: props))
      with (member_text kv ++ 44 :: members_text (kv' :: props)).
    rewrite <- app_assoc. rewrite parse_member.
    cbn [app]. change (expect 44 (44 :: ?x)) with (Some x). cbv iota.
    rewrite IH; [reflexivity | discriminate | simpl in Hf |- *; lia].
Qed.

Lemma members_text_length (props : list (jsstring * prim)) :
  (length props <= length (members_text props))%nat.
Proof.
  induction props as [|kv [|kv' props] IH].
  - reflexivity.
  - cbn [members_text]. unfold member_text, QuoteJSONString. simpl. lia.
  - change (members_text (kv :: kv' :: props))
      with (member_text kv ++ 44 :: members_text (kv' :: props)).
    rewrite length_app. simpl in IH |- *. lia.
Qed.

Lemma members_text_quote (kv : jsstring * prim) (props : list (jsstring * prim)) :
  exists tl : jsstring, members_text (kv :: props) ++ [125] = 34 :: tl.
Proof.
  destruct props as [|kv' props].
  - cbn [members_text]. rewrite member_text_head. eauto.
  - change (members_text (kv :: kv' :: props))
      with (member_text kv ++ 44 :: members_text (kv' :: props)).
    rewrite <- app_assoc, member_text_head. eauto.
Qed.

(** [JSON.parse] reads what [JSON.stringify] wrote: the same keys in the
    same order, each with the value it had. *)
Lemma parse_stringify (props : list (jsstring * prim)) :
  parse (stringify props) = Some (Obj (map member_value props)).
Proof.
  unfold parse, stringify.
  destruct props as [|kv props]; [reflexivity|].
  set (ps := kv :: props).
  assert (Hm : parse_members (S (length (members_text ps ++ [125])))
                 (members_text ps ++ [125]) = Some (map member_value ps, [])).
  { apply parse_members_text; [discriminate|].
    rewrite length_app. pose proof (members_text_length ps).
    change (length [125]) with 1%nat. lia. }
  cbn [length parse_value skip_ws]. change (is_ws 123) with false. cbv iota.
  change (123 =? 123) with true. cbv iota.
  rewrite Hm.
  destruct (members_text_quote kv props) as [tl Htl]. fold ps in Htl.
  rewrite Htl. reflexivity.
Qed.

End JsonRoundTrip.

Section ParserFuel.
Import JSON.

Lemma skip_ws_length (inp : jsstring) : (length (skip_ws inp) <= length inp)%nat.
Proof.
  induction inp as [|c r IH]; [reflexivity|].
  cbn [skip_ws]. destruct (is_ws c); cbn [length] in *; lia.
Qed.

Lemma expect_length (c : N) (inp r : jsstring) :
  expect c inp = Some r -> (length r < length inp)%nat.
Proof.
  unfold expect. pose proof (skip_ws_length inp) as H.
  destruct (skip_ws inp) as [|c' r']; [discriminate|].
  destruct (c' =? c); [|discriminate]. intros [= <-]. cbn [length] in H. lia.
Qed.

Lemma parse_chars_length_le (n : nat) :
  forall (inp s rest : jsstring), (length inp <= n)%nat ->
  parse_chars inp = Some (s, rest) -> (length rest < length inp)%nat.
Proof.
  induction n as [|n IH]; intros inp s rest Hn H.
  - destruct inp; [discriminate | cbn [length] in Hn; lia].
  - destruct inp as [|c r]; [discriminate|]. cbn [parse_chars] in H.
    cbn [length] in Hn |- *.
    destruct (c =? 34); [injection H as _ <-; lia|].
    destruct (c =? 92).
    + destruct r as [|e r1]; [discriminate|].
      destruct (e =? 117).
      * destruct r1 as [|h1 [|h2 [|h3 [|h4 r2]]]]; try discriminate.
        destruct (hex4 h1 h2 h3 h4); [|discriminate].
        destruct (parse_chars r2) as [[s' rest']|] eqn:E; [|discriminate].
        injection H as _ <-. apply IH in E; cbn [length] in *; lia.
      * destruct (unescape e); [|discriminate].
        destruct (parse_chars r1) as [[s' rest']|] eqn:E; [|discriminate].
        injection H as _ <-. apply IH in E; cbn [length] in *; lia.
    + destruct (c <? 32); [discriminate|].
      destruct (parse_chars r) as [[s' rest']|] eqn:E; [|discriminate].
      injection H as _ <-. apply IH in E; lia.
Qed.

Lemma parse_chars_length (inp s rest : jsstring) :
  parse_chars inp = Some (s, rest) -> (length rest < length inp)%nat.
Proof. apply (parse_chars_length_le (length inp)). reflexivity. Qed.

Lemma take_digits_length (inp : jsstring) :
  length inp = (length (take_digits inp).1 + length (take_digits inp).2)%nat.
Proof.
  induction inp as [|c r IH]; [reflexivity|].
  cbn [take_digits]. destruct (is_digit c); [|reflexivity].
  destruct (take_digits r) as [ds rest]. cbn [fst snd length] in *. lia.
Qed.

Lemma parse_frac_length (inp rest : jsstring) (ds : list N) :
  parse_frac inp = Some (ds, rest) -> (length rest <= length inp)%nat.
Proof.
  unfold parse_frac. destruct inp as [|c r]; [intros [= _ <-]; reflexivity|].
  destruct (c =? 46); [|intros [= _ <-]; reflexivity].
  pose proof (take_digits_length r) as H.
  destruct (take_digits r) as [[|d ds'] rest']; [discriminate|].
  intros [= _ <-]. cbn [fst snd length] in *. lia.
Qed.

Lemma parse_exp_length (inp rest : jsstring) (e : Z) :
  parse_exp inp = Some (e, rest) -> (length rest <= length inp)%nat.
Proof.
  unfold parse_exp. destruct inp as [|c r]; [intros [= _ <-]; reflexivity|].
  destruct ((c =? 101) || (c =? 69)); [|intros [= _ <-]; reflexivity].
  assert (Hs : (length (parse_sign r).2 <= length r)%nat).
  { unfold parse_sign. destruct r as [|c' r']; [reflexivity|].
    destruct (c' =? 45); [cbn; lia|]. destruct (c' =? 43); cbn; lia. }
  destruct (parse_sign r) as [neg r1]. cbn [snd] in Hs.
  pose proof (take_digits_length r1) as H.
  destruct (take_digits r1) as [[|d ds'] rest']; [discriminate|].
  intros [= _ <-]. cbn [fst snd length] in *. lia.
Qed.

Lemma parse_number_length (neg : bool) (inp rest : jsstring) (v : value) :
  parse_number neg inp = Some (v, rest) -> (length rest < length inp)%nat.
Proof.
  unfold parse_number. pose proof (take_digits_length inp) as H.
  destruct (take_digits inp) as [[|d ds] r0]; [discriminate|].
  cbn [fst snd length] in H.
  assert (Hr : lt (length (if d =? 0 then ([d], skipn 1 inp) else (d :: ds, r0)).2)
                  (length inp)).
  { destruct (d =? 0); cbn [snd].
    - destruct inp as [|c inp]; [simpl in H; lia|].
      change (skipn 1 (c :: inp)) with (skipn 0 inp). rewrite skipn_O.
      cbn [length]. lia.
    - lia. }
  destruct (if d =? 0 then ([d], skipn 1 inp) else (d :: ds, r0)) as [ip r1].
  cbn [snd] in Hr.
  destruct (parse_frac r1) as [[fp r2]|] eqn:Ef; [|discriminate].
  destruct (parse_exp r2) as [[e r3]|] eqn:Ee; [|discriminate].
  intros [= _ <-]. apply parse_frac_length in Ef. apply parse_exp_length in Ee. lia.
Qed.

Lemma strip_prefix_length (p inp r : jsstring) :
  strip_prefix p inp = Some r -> length inp = (length p + length r)%nat.
Proof.
  revert inp. induction p as [|a p IH]; intros inp H.
  - injection H as <-. reflexivity.
  - destruct inp as [|b inp]; [discriminate|]. cbn [strip_prefix] in H.
    destruct (a =? b); [|discriminate]. apply IH in H. cbn [length]. lia.
Qed.

Lemma parse_literal_length (inp rest : jsstring) (v : value) :
  parse_literal inp = Some (v, rest) -> (length rest < length inp)%nat.
Proof.
  unfold parse_literal.
  destruct (strip_prefix (js "true") inp) eqn:E1.
  { intros [= _ <-]. apply strip_prefix_length in E1. cbn [js length] in E1.
    simpl in E1. lia. }
  destruct (strip_prefix (js "false") inp) eqn:E2.
  { intros [= _ <-]. apply strip_prefix_length in E2. simpl in E2. lia. }
  destruct (strip_prefix (js "null") inp) eqn:E3; [|discriminate].
  intros [= _ <-]. apply strip_prefix_length in E3. simpl in E3. lia.
Qed.

Lemma parse_fuel (f : nat) :
  fuel_bounded parse_value f /\ fuel_bounded parse_members f
  /\ fuel_bounded parse_elements f.
Proof.
  induction f as [|f (IHv & IHm & IHe)].
  { split; [|split]; intros inp rest a H; discriminate. }
  split; [|split]; intros inp rest a H.
  - cbn [parse_value] in H. pose proof (skip_ws_length inp) as Hw.
    destruct (skip_ws inp) as [|c r] eqn:Ew; [discriminate|].
    cbn [length] in Hw.
    assert (Hstep : forall f', parse_value (S f') inp =
      if c =? 123 then
        match expect 125 r with
        | Some r1 => Some (Obj [], r1)
        | None =>
          match parse_members f' r with
          | Some (ms, r1) => Some (Obj ms, r1)
          | None => None
          end
        end
      else if c =? 91 then
        match expect 93 r with
        | Some r1 => Some (Arr [], r1)
        | None =>
          match parse_elements f' r with
          | Some (vs, r1) => Some (Arr vs, r1)
          | None => None
          end
        end
      else if c =? 34 then
        match parse_chars r with
        | Some (s, r1) => Some (Str s, r1)
        | None => None
        end
      else if c =? 45 then parse_number true r
      else if is_digit c then parse_number false (c :: r)
      else parse_literal (c :: r)).
    { intros f'. cbn [parse_value]. rewrite Ew. reflexivity. }
    destruct (c =? 123) eqn:E123.
    { destruct (expect 125 r) as [r1|] eqn:E1.
      - injection H as <- <-. apply expect_length in E1 as Hl.
        split; [lia|]. intros [|f'] Hf; [lia|].
        rewrite Hstep. reflexivity.
      - destruct (parse_members f r) as [[ms r1]|] eqn:Em; [|discriminate].
        injection H as <- <-. destruct (IHm _ _ _ Em) as [Hl Hk].
        split; [lia|]. intros [|f'] Hf; [lia|].
        rewrite Hstep, Hk by lia. reflexivity. }
    destruct (c =? 91) eqn:E91.
    { destruct (expect 93 r) as [r1|] eqn:E1.
      - injection H as <- <-. apply expect_length in E1 as Hl.
        split; [lia|]. intros [|f'] Hf; [lia|].
        rewrite Hstep. reflexivity.
      - destruct (parse_elements f r) as [[vs r1]|] eqn:Em; [|discriminate].
        injection H as <- <-. destruct (IHe _ _ _ Em) as [Hl Hk].
        split; [lia|]. intros [|f'] Hf; [lia|].
        rewrite Hstep, Hk by lia. reflexivity. }
    assert (Hleaf : (length rest < length inp)%nat).
    { destruct (c =? 34).
      - destruct (parse_chars r) as [[s r1]|] eqn:Ec; [|discriminate].
        injection H as _ <-. apply parse_chars_length in Ec. lia.
      - destruct (c =? 45); [apply parse_number_length in H; lia|].
        destruct (is_digit c);
          [apply parse_number_length in H | apply parse_literal_length in H];
          cbn [length] in H; lia. }
    split; [exact Hleaf|]. intros [|f'] Hf; [lia|].
    rewrite Hstep. exact H.
  - cbn [parse_members] in H.
    destruct (expect 34 inp) as [r|] eqn:E0; [|discriminate].
    destruct (parse_chars r) as [[k r1]|] eqn:Ek; [|discriminate].
    destruct (expect 58 r1) as [r2|] eqn:E2; [|discriminate].
    destruct (parse_value f r2) as [[v r3]|] eqn:Ev; [|discriminate].
    apply expect_length in E0 as L0. apply parse_chars_length in Ek as L1.
    apply expect_length in E2 as L2. destruct (IHv _ _ _ Ev) as [L3 Kv].
    destruct (expect 44 r3) as [r4|] eqn:E4.
    + destruct (parse_members f r4) as [[ms r5]|] eqn:Em; [|discriminate].
      injection H as <- <-. apply expect_length in E4 as L4.
      destruct (IHm _ _ _ Em) as [L5 Km].
      split; [lia|]. intros [|f'] Hf; [lia|].
      cbn [parse_members]. rewrite E0, Ek, E2, Kv, E4, Km by lia. reflexivity.
    + destruct (expect 125 r3) as [r4|] eqn:E5; [|discriminate].
      injection H as <- <-. apply expect_length in E5 as L4.
      split; [lia|]. intros [|f'] Hf; [lia|].
      cbn [parse_members]. rewrite E0, Ek, E2, Kv, E4, E5 by lia. reflexivity.
  - cbn [parse_elements] in H.
    destruct (parse_value f inp) as [[v r1]|] eqn:Ev; [|discriminate].
    destruct (IHv _ _ _ Ev) as [L1 Kv].
    destruct (expect 44 r1) as [r2|] eqn:E4.
    + destruct (parse_elements f r2) as [[vs r3]|] eqn:Ee; [|discriminate].
      injection H as <- <-. apply expect_length in E4 as L2.
      destruct (IHe _ _ _ Ee) as [L3 Ke].
      split; [lia|]. intros [|f'] Hf; [lia|].
      cbn [parse_elements]. rewrite Kv, E4, Ke by lia. reflexivity.
    + destruct (expect 93 r1) as [r2|] eqn:E5; [|discriminate].
      injection H as <- <-. apply expect_length in E5 as L2.
      split; [lia|]. intros [|f'] Hf; [lia|].
      cbn [parse_elements]. rewrite Kv, E4, E5 by lia. reflexivity.
Qed.

(** The fuel of [parse] is enough: whenever some amount of fuel reads a
    value off the whole text, [parse] returns that value. *)
Lemma parse_complete (text rest : jsstring) (f : nat) (v : value) :
  parse_value f text = Some (v, rest) -> skip_ws rest = [] ->
  parse text = Some v.
Proof.
  intros H Hrest. destruct (parse_fuel f) as (Hv & _ & _).
  destruct (Hv _ _ _ H) as [_ Hk]. unfold parse.
  rewrite Hk by lia. rewrite Hrest. reflexivity.
Qed.

End ParserFuel.

Section Serializer.
Import Generator.

(** The parsed form of the payload of a record. *)
Lemma payload_parse (record : Firestore.Rsvp) :
  JSON.parse (payloadOf record) = Some (scanned record).
Proof. unfold payloadOf. rewrite parse_stringify. reflexivity. Qed.

Lemma makeToken_nonempty (rng : nat -> byte) :
  makeToken rng (Some 16%nat) <> [].
Proof.
  intros H. pose proof (makeToken_length rng 16) as Hl.
  rewrite H in Hl. discriminate.
Qed.

(** The payload of a record with a non-empty token passes the scanner's
    test. *)
Lemma classify_payload (record : Firestore.Rsvp) :
  Firestore.token record <> [] ->
  Scanner.classify (payloadOf record) = Scanner.Rsvp_code (scanned record).
Proof.
  intros Hne. unfold Scanner.classify. rewrite payload_parse.
  change (JSON.get (scanned record) (js "t")) with (Some (Some (JSON.Str (js "rsvp")))).
  change (JSON.get (scanned record) (js "token"))
    with (Some (Some (JSON.Str (Firestore.token record)))).
  destruct (Firestore.token record); [congruence|]. reflexivity.
Qed.

(** C7: the payload of the record that registration builds parses, passes
    the scanner's test, and carries the record's token, name, email,
    phone and coming unchanged. *)
Theorem payload_round_trip (rng : nat -> byte) (data : FormData) (created : Z) :
  let record := newRecord (makeToken rng (Some 16%nat)) data created in
  exists qrData : JSON.value,
    JSON.parse (payloadOf record) = Some qrData
    /\ Scanner.classify (payloadOf record) = Scanner.Rsvp_code qrData
    /\ JSON.get qrData (js "token") = Some (Some (JSON.Str (Firestore.token record)))
    /\ JSON.get qrData (js "name") = Some (Some (JSON.Str (Firestore.name record)))
    /\ JSON.get qrData (js "email") = Some (Some (JSON.Str (Firestore.email record)))
    /\ JSON.get qrData (js "phone") = Some (Some (JSON.Str (Firestore.phone record)))
    /\ JSON.get qrData (js "coming") = Some (Some (JSON.Bool (Firestore.coming record))).
Proof.
  intros record. exists (scanned record).
  split; [apply payload_parse|].
  split; [apply classify_payload; apply makeToken_nonempty|].
  repeat split; reflexivity.
Qed.

End Serializer.

Section CheckIn.
Import Scanner.

Variables (env : Env) (qrData : JSON.value) (id : jsstring).
Hypothesis Htoken : JSON.get qrData (js "token") = Some (Some (JSON.Str id)).
Hypothesis Hid : id <> [].

Lemma checkIn_steps (db : Firestore.Store) :
  checkIn env qrData db =
  match getDoc_fault env with
  | Some m => (db, Raised (Firestore.StoreFault m))
  | None =>
    match db !! id with
    | None => (db, Raised (Firestore.Thrown (js "RSVP not found")))
    | Some rsvpData =>
      if decide (Firestore.status rsvpData = Firestore.checked_in)
      then (db, AlreadyIn rsvpData)
      else
        match updateDoc_fault env with
        | Some m => (concurrent env db, Raised (Firestore.StoreFault m))
        | None =>
          match concurrent env db !! id with
          | Some cur =>
            (<[id := checkInFields (now env) cur]> (concurrent env db), CheckedIn rsvpData)
          | None => (concurrent env db, Raised (Firestore.StoreFault (missing_msg env)))
          end
        end
    end
  end.
Proof.
  unfold checkIn. rewrite Htoken.
  destruct id as [|c tl]; [congruence|]. cbn [JSON.truthy negb].
  unfold Firestore.getDoc, Firestore.updateDoc.
  destruct (getDoc_fault env); [reflexivity|].
  destruct (db !! (c :: tl)) as [r|]; [|reflexivity].
  destruct (decide _); [reflexivity|].
  destruct (updateDoc_fault env); [reflexivity|].
  destruct (concurrent env db !! (c :: tl)); reflexivity.
Qed.

End CheckIn.


Section CheckInRuns.
Import Scanner.

(** The store that a run leaves is the one its [try] block leaves. *)
Lemma handleCheckIn_store (env : Env) (qrData : JSON.value) (sc : Scanner)
    (db : Firestore.Store) :
  (handleCheckIn env qrData sc db).1.2 = (checkIn env qrData db).1.
Proof.
  unfold handleCheckIn.
  destruct (checkIn env qrData db) as [db' [r|r|e]]; [|reflexivity..].
  destruct (onResult_report env qrData); reflexivity.
Qed.

(** The run of [handleCheckIn] that writes: the record was read with a
    status other than checked_in, neither call rejected, and the document
    still exists when the write arrives.  What follows the write depends
    on the parent's callback. *)
Lemma handleCheckIn_writes (env : Env) (qrData : JSON.value) (id : jsstring)
    (sc : Scanner) (db : Firestore.Store) (r cur : Firestore.Rsvp) :
  JSON.get qrData (js "token") = Some (Some (JSON.Str id)) ->
  id <> [] ->
  getDoc_fault env = None -> updateDoc_fault env = None ->
  db !! id = Some r -> Firestore.status r <> Firestore.checked_in ->
  concurrent env db !! id = Some cur ->
  handleCheckIn env qrData sc db =
  match onResult_report env qrData with
  | None =>
    (setIsProcessing false (welcome r (beginCheckIn sc)),
     <[id := checkInFields (now env) cur]> (concurrent env db),
     [OnResultCheckedIn qrData; StatusResetTimer])
  | Some m =>
    (setIsProcessing false
       (setStatus (failedStatus (Firestore.CallbackFault m)) (welcome r (beginCheckIn sc))),
     <[id := checkInFields (now env) cur]> (concurrent env db),
     [OnResultCheckedIn qrData; OnError (Firestore.CallbackFault m); StatusResetTimer])
  end.
Proof.
  intros Htoken Hid Hg Hu Hr Hs Hc. unfold handleCheckIn.
  rewrite (checkIn_steps env qrData id Htoken Hid), Hg, Hr, Hu, Hc.
  destruct (decide _) as [He|_]; [congruence|].
  destruct (onResult_report env qrData); reflexivity.
Qed.

(** The store that the writing run leaves, whatever the callback does. *)
Lemma handleCheckIn_written (env : Env) (qrData : JSON.value) (id : jsstring)
    (sc : Scanner) (db : Firestore.Store) (r cur : Firestore.Rsvp) :
  JSON.get qrData (js "token") = Some (Some (JSON.Str id)) ->
  id <> [] ->
  getDoc_fault env = None -> updateDoc_fault env = None ->
  db !! id = Some r -> Firestore.status r <> Firestore.checked_in ->
  concurrent env db !! id = Some cur ->
  (handleCheckIn env qrData sc db).1.2
  = <[id := checkInFields (now env) cur]> (concurrent env db).
Proof.
  intros Htoken Hid Hg Hu Hr Hs Hc.
  rewrite (handleCheckIn_writes env qrData id sc db r cur) by assumption.
  destruct (onResult_report env qrData); reflexivity.
Qed.

(** The run of [handleCheckIn] that finds the record checked in: no
    write, no callback. *)
Lemma handleCheckIn_already (env : Env) (qrData : JSON.value) (id : jsstring)
    (sc : Scanner) (db : Firestore.Store) (r : Firestore.Rsvp) :
  JSON.get qrData (js "token") = Some (Some (JSON.Str id)) ->
  id <> [] ->
  getDoc_fault env = None ->
  db !! id = Some r -> Firestore.status r = Firestore.checked_in ->
  handleCheckIn env qrData sc db =
  (setIsProcessing false (setStatus (alreadyStatus r) (beginCheckIn sc)),
   db, [StatusResetTimer]).
Proof.
  intros Htoken Hid Hg Hr Hs. unfold handleCheckIn.
  rewrite (checkIn_steps env qrData id Htoken Hid), Hg, Hr.
  destruct (decide _) as [_|Hn]; [reflexivity|congruence].
Qed.

End CheckInRuns.

Section CheckInClaims.
Import Scanner.

(** C2: a record that is already checked in is answered with the
    already-checked-in status and the store is left as it was.  Of two
    runs in a row on an invited record that the store does not disturb,
    the first checks the record in and the second finds it checked in and
    writes nothing, so the stored checkedInAt is the time of the first run
    after both; the first run shows the success status when the parent's
    callback returns, and the failure status, the write landed all the
    same, when it throws. *)
Theorem checkIn_idempotent (qrData : JSON.value) (id : jsstring)
    (sc : Scanner) (db : Firestore.Store) (r : Firestore.Rsvp)
    (Htoken : JSON.get qrData (js "token") = Some (Some (JSON.Str id)))
    (Hid : id <> [])
    (Hr : db !! id = Some r) :
  (Firestore.status r = Firestore.checked_in ->
   forall env : Env, getDoc_fault env = None ->
     let out := handleCheckIn env qrData sc db in
     (checkIn env qrData db).2 = AlreadyIn r
     /\ status out.1.1 = alreadyStatus r
     /\ out.1.2 = db
     /\ out.2 = [StatusResetTimer])
  /\ (Firestore.status r = Firestore.invited ->
      forall (now1 now2 : Z) (cb1 cb2 : JSON.value -> option jsstring),
        let first := handleCheckIn (undisturbed now1 cb1) qrData sc db in
        let second :=
          handleCheckIn (undisturbed now2 cb2) qrData first.1.1 first.1.2 in
        (checkIn (undisturbed now1 cb1) qrData db).2 = CheckedIn r
        /\ (cb1 qrData = None -> status first.1.1 = successStatus r)
        /\ (forall m, cb1 qrData = Some m ->
              status first.1.1 = failedStatus (Firestore.CallbackFault m))
        /\ (checkIn (undisturbed now2 cb2) qrData first.1.2).2
           = AlreadyIn (checkInFields now1 r)
        /\ status second.1.1 = alreadyStatus r
        /\ second.1.2 = first.1.2
        /\ second.2 = [StatusResetTimer]
        /\ Firestore.checkedInAt <$> first.1.2 !! id = Some (Some now1)
        /\ Firestore.checkedInAt <$> second.1.2 !! id = Some (Some now1)).
Proof.
  split.
  - intros Hs env Hf out. subst out.
    rewrite (handleCheckIn_already env qrData id sc db r) by assumption.
    rewrite (checkIn_steps env qrData id Htoken Hid), Hf, Hr.
    destruct (decide _) as [_|Hn]; [auto|congruence].
  - intros Hs now1 now2 cb1 cb2 first second.
    assert (Hne : Firestore.status r <> Firestore.checked_in)
      by (rewrite Hs; discriminate).
    assert (Hfirst := handleCheckIn_writes (undisturbed now1 cb1) qrData id sc db r r
                        Htoken Hid eq_refl eq_refl Hr Hne Hr).
    fold first in Hfirst. cbn [undisturbed concurrent now onResult_report] in Hfirst.
    assert (Hdb : first.1.2 = <[id := checkInFields now1 r]> db)
      by (rewrite Hfirst; destruct (cb1 qrData); reflexivity).
    assert (Hlk : first.1.2 !! id = Some (checkInFields now1 r))
      by (rewrite Hdb; apply lookup_insert_eq).
    assert (Hsecond := handleCheckIn_already (undisturbed now2 cb2) qrData id
                         first.1.1 first.1.2 (checkInFields now1 r)
                         Htoken Hid eq_refl Hlk eq_refl).
    fold second in Hsecond.
    split.
    { rewrite (checkIn_steps _ qrData id Htoken Hid). cbn [undisturbed getDoc_fault
        updateDoc_fault concurrent]. rewrite Hr.
      destruct (decide _) as [He|_]; [congruence|reflexivity]. }
    split; [intros Hcb; rewrite Hfirst, Hcb; reflexivity|].
    split; [intros m Hcb; rewrite Hfirst, Hcb; reflexivity|].
    split.
    { rewrite (checkIn_steps _ qrData id Htoken Hid). cbn [undisturbed getDoc_fault].
      rewrite Hlk. destruct (decide _) as [_|Hn]; [reflexivity|].
      exfalso. apply Hn. reflexivity. }
    rewrite Hsecond. cbn [fst snd]. rewrite Hlk.
    repeat split; reflexivity.
Qed.

End CheckInClaims.

Section CheckInWrite.
Import Scanner.

(** C1, as the code has it: once the read has shown a status other than
    checked_in, the write is applied to whatever record the store holds
    when it arrives, of any status; it sets status to checked_in, coming
    to true and checkedInAt to the current time, and the check-in is
    reported to the parent.  The run shows success when that callback
    returns; when it throws, the run shows the failure status and passes
    the exception to onError, the write having landed. *)
Theorem checkIn_write_unconditional (env : Env) (qrData : JSON.value)
    (id : jsstring) (sc : Scanner) (db : Firestore.Store) (r cur : Firestore.Rsvp)
    (Htoken : JSON.get qrData (js "token") = Some (Some (JSON.Str id)))
    (Hid : id <> [])
    (Hget : getDoc_fault env = None) (Hupd : updateDoc_fault env = None)
    (Hr : db !! id = Some r)
    (Hs : Firestore.status r <> Firestore.checked_in)
    (Hcur : concurrent env db !! id = Some cur) :
  let out := handleCheckIn env qrData sc db in
  (exists r' : Firestore.Rsvp,
     out.1.2 !! id = Some r'
     /\ Firestore.status r' = Firestore.checked_in
     /\ Firestore.coming r' = true
     /\ Firestore.checkedInAt r' = Some (now env))
  /\ (onResult_report env qrData = None ->
        status out.1.1 = successStatus r
        /\ out.2 = [OnResultCheckedIn qrData; StatusResetTimer])
  /\ (forall m : jsstring, onResult_report env qrData = Some m ->
        status out.1.1 = failedStatus (Firestore.CallbackFault m)
        /\ out.2 = [OnResultCheckedIn qrData; OnError (Firestore.CallbackFault m);
                    StatusResetTimer]).
Proof.
  intros out. subst out.
  rewrite (handleCheckIn_writes env qrData id sc db r cur) by assumption.
  split; [|split].
  - exists (checkInFields (now env) cur).
    destruct (onResult_report env qrData); cbn [fst snd];
      rewrite lookup_insert_eq; auto.
  - intros Hcb. rewrite Hcb. split; reflexivity.
  - intros m Hcb. rewrite Hcb. split; reflexivity.
Qed.

(** C1 at the run that another station overtakes, with a parent whose
    callback returns. *)
Lemma checkIn_write_unconditional_witness :
  let out := handleCheckIn Sample.raced Sample.qrA initial Sample.dbA in
  status out.1.1 = successStatus Sample.recA
  /\ exists r' : Firestore.Rsvp,
       out.1.2 !! Sample.tokA = Some r'
       /\ Firestore.status r' = Firestore.checked_in
       /\ Firestore.coming r' = true
       /\ Firestore.checkedInAt r' = Some 2000%Z.
Proof.
  assert (Hid : Sample.tokA <> []) by discriminate.
  assert (Hs : Firestore.status Sample.recA <> Firestore.checked_in) by discriminate.
  assert (Hcur : concurrent Sample.raced Sample.dbA !! Sample.tokA
                 = Some (checkInFields 1000 Sample.recA))
    by (vm_compute; reflexivity).
  destruct (checkIn_write_unconditional Sample.raced Sample.qrA Sample.tokA
              initial Sample.dbA Sample.recA (checkInFields 1000 Sample.recA)
              eq_refl Hid eq_refl eq_refl eq_refl Hs Hcur) as (Hw & Hok & _).
  split; [exact (proj1 (Hok eq_refl))|exact Hw].
Defined.

(** C1 fails as stated: the second station has checked the token in
    between this run's read and its write, so the status is no longer
    invited when the write arrives; the write is applied all the same,
    replaces the check-in time 1000 by 2000, and the run reports success,
    not already checked in. *)
Lemma checkIn_write_not_conditional :
  let at_write := concurrent Sample.raced Sample.dbA in
  let out := handleCheckIn Sample.raced Sample.qrA initial Sample.dbA in
  Firestore.status <$> at_write !! Sample.tokA = Some Firestore.checked_in
  /\ Firestore.checkedInAt <$> at_write !! Sample.tokA = Some (Some 1000%Z)
  /\ Firestore.checkedInAt <$> out.1.2 !! Sample.tokA = Some (Some 2000%Z)
  /\ status out.1.1 = successStatus Sample.recA
  /\ status out.1.1 <> alreadyStatus Sample.recA.
Proof.
  vm_compute. repeat split; try reflexivity. discriminate.
Qed.

(** X13: without any interference the status at write time need not be
    invited either: a cancelled record is checked in like an invited one.
    The store then holds the record with the check-in fields set, the
    check-in is reported to the parent, and the run shows success when
    that callback returns. *)
Theorem checkIn_cancelled_record (r : Firestore.Rsvp) (id : jsstring) (z : Z)
    (cb : JSON.value -> option jsstring)
    (Hid : id <> [])
    (Hpath : ~ In 47 id)
    (Hs : Firestore.status r = Firestore.cancelled) :
  let qrData := JSON.Obj [(js "token", JSON.Str id)] in
  let out := handleCheckIn (undisturbed z cb) qrData initial {[ id := r ]} in
  out.1.2 = {[ id := checkInFields z r ]}
  /\ Firestore.status (checkInFields z r) = Firestore.checked_in
  /\ In (OnResultCheckedIn qrData) out.2
  /\ (cb qrData = None -> out_status out = successStatus r)
  /\ (forall m : jsstring, cb qrData = Some m ->
        out_status out = failedStatus (Firestore.CallbackFault m)).
Proof.
  intros qrData out. subst out. unfold out_status.
  assert (Hne : Firestore.status r <> Firestore.checked_in)
    by (rewrite Hs; discriminate).
  assert (Hlk : ({[ id := r ]} : Firestore.Store) !! id = Some r)
    by apply lookup_singleton_eq.
  rewrite (handleCheckIn_writes (undisturbed z cb) qrData id initial {[ id := r ]} r r
             eq_refl Hid eq_refl eq_refl Hlk Hne Hlk).
  cbn [undisturbed onResult_report concurrent now].
  destruct (cb qrData) as [m|]; cbn [fst snd];
    (split; [apply insert_singleton_eq|]);
    (split; [reflexivity|]);
    (split; [left; reflexivity|]);
    (split; [intros H|intros m' H]);
    try discriminate; try reflexivity.
  injection H as <-. reflexivity.
Qed.

Lemma checkIn_cancelled_record_witness :
  let r := Firestore.mkRsvp (js "rsvp") Sample.tokA (js "Ana") (js "a@x.com")
             (js "5551234") true Firestore.cancelled 100 None None in
  let qrData := JSON.Obj [(js "token", JSON.Str Sample.tokA)] in
  let out := handleCheckIn (quiet 1000) qrData initial {[ Sample.tokA := r ]} in
  out.1.2 = {[ Sample.tokA := checkInFields 1000 r ]}
  /\ out_status out = successStatus r.
Proof.
  intros r qrData out.
  assert (Hid : Sample.tokA <> []) by discriminate.
  assert (Hpath : ~ In 47 Sample.tokA)
    by (vm_compute; intros H; repeat (destruct H as [H|H]; [discriminate|]); exact H).
  destruct (checkIn_cancelled_record r Sample.tokA 1000 (fun _ => None)
              Hid Hpath eq_refl) as (Hdb & _ & _ & Hok & _).
  split; [exact Hdb|exact (Hok eq_refl)].
Defined.

(** C9: the write of a successful check-in sets coming, status,
    checkedInAt and checkedInBy (to "scanner"), keeps t, token, name,
    email, phone and createdAt of the stored record, and leaves every other
    document alone; registration itself never sets checkedInBy. *)
Theorem checkIn_write_frame (env : Env) (qrData : JSON.value)
    (id : jsstring) (sc : Scanner) (db : Firestore.Store) (r cur : Firestore.Rsvp)
    (Htoken : JSON.get qrData (js "token") = Some (Some (JSON.Str id)))
    (Hid : id <> [])
    (Hget : getDoc_fault env = None) (Hupd : updateDoc_fault env = None)
    (Hr : db !! id = Some r)
    (Hs : Firestore.status r <> Firestore.checked_in)
    (Hcur : concurrent env db !! id = Some cur) :
  let db' := (handleCheckIn env qrData sc db).1.2 in
  (exists r' : Firestore.Rsvp,
     db' !! id = Some r'
     /\ Firestore.coming r' = true
     /\ Firestore.status r' = Firestore.checked_in
     /\ Firestore.checkedInAt r' = Some (now env)
     /\ Firestore.checkedInBy r' = Some (js "scanner")
     /\ Firestore.t r' = Firestore.t cur
     /\ Firestore.token r' = Firestore.token cur
     /\ Firestore.name r' = Firestore.name cur
     /\ Firestore.email r' = Firestore.email cur
     /\ Firestore.phone r' = Firestore.phone cur
     /\ Firestore.createdAt r' = Firestore.createdAt cur)
  /\ (forall k : jsstring, k <> id -> db' !! k = concurrent env db !! k)
  /\ (forall (tok : jsstring) (data : Generator.FormData) (z : Z),
        Firestore.checkedInBy (Generator.newRecord tok data z) = None).
Proof.
  intros db'. subst db'.
  rewrite (handleCheckIn_written env qrData id sc db r cur) by assumption.
  split; [|split].
  - exists (checkInFields (now env) cur). rewrite lookup_insert_eq.
    repeat split; reflexivity.
  - intros k Hk. apply lookup_insert_ne. congruence.
  - reflexivity.
Qed.

Lemma checkIn_write_frame_witness :
  let db' := (handleCheckIn (quiet 1000) Sample.qrA initial Sample.dbA).1.2 in
  (exists r' : Firestore.Rsvp,
     db' !! Sample.tokA = Some r'
     /\ Firestore.coming r' = true
     /\ Firestore.status r' = Firestore.checked_in
     /\ Firestore.checkedInAt r' = Some 1000%Z
     /\ Firestore.checkedInBy r' = Some (js "scanner")
     /\ Firestore.t r' = Firestore.t Sample.recA
     /\ Firestore.token r' = Firestore.token Sample.recA
     /\ Firestore.name r' = Firestore.name Sample.recA
     /\ Firestore.email r' = Firestore.email Sample.recA
     /\ Firestore.phone r' = Firestore.phone Sample.recA
     /\ Firestore.createdAt r' = Firestore.createdAt Sample.recA)
  /\ (forall k : jsstring, k <> Sample.tokA -> db' !! k = Sample.dbA !! k)
  /\ (forall (tok : jsstring) (data : Generator.FormData) (z : Z),
        Firestore.checkedInBy (Generator.newRecord tok data z) = None).
Proof.
  apply (checkIn_write_frame (quiet 1000) Sample.qrA Sample.tokA initial
           Sample.dbA Sample.recA Sample.recA).
  - reflexivity.
  - discriminate.
  - reflexivity.
  - reflexivity.
  - reflexivity.
  - discriminate.
  - reflexivity.
Defined.

(** C2 at Ana's record: scanned again after another station has checked
    it in; and scanned twice in a row, first with a parent whose callback
    throws. *)
Lemma checkIn_idempotent_witness :
  (let out := handleCheckIn (quiet 2000) Sample.qrA initial (Sample.otherStation Sample.dbA) in
   status out.1.1 = alreadyStatus (checkInFields 1000 Sample.recA)
   /\ out.1.2 = Sample.otherStation Sample.dbA
   /\ out.2 = [StatusResetTimer])
  /\ (let first := handleCheckIn (quiet 1000) Sample.qrA initial Sample.dbA in
      let second := handleCheckIn (quiet 2000) Sample.qrA first.1.1 first.1.2 in
      status first.1.1 = successStatus Sample.recA
      /\ status second.1.1 = alreadyStatus Sample.recA
      /\ second.1.2 = first.1.2
      /\ Firestore.checkedInAt <$> first.1.2 !! Sample.tokA = Some (Some 1000%Z)
      /\ Firestore.checkedInAt <$> second.1.2 !! Sample.tokA = Some (Some 1000%Z))
  /\ (let first := handleCheckIn (Sample.throwing 1000) Sample.qrA initial Sample.dbA in
      let second := handleCheckIn (quiet 2000) Sample.qrA first.1.1 first.1.2 in
      status first.1.1 = failedStatus (Firestore.CallbackFault (js "boom"))
      /\ status second.1.1 = alreadyStatus Sample.recA
      /\ Firestore.checkedInAt <$> second.1.2 !! Sample.tokA = Some (Some 1000%Z)).
Proof.
  assert (Hid : Sample.tokA <> []) by discriminate.
  assert (Hin : Sample.otherStation Sample.dbA !! Sample.tokA
                = Some (checkInFields 1000 Sample.recA))
    by (vm_compute; reflexivity).
  split; [|split].
  - destruct (proj1 (checkIn_idempotent Sample.qrA Sample.tokA initial
                       (Sample.otherStation Sample.dbA) (checkInFields 1000 Sample.recA)
                       eq_refl Hid Hin) eq_refl (quiet 2000) eq_refl)
      as (_ & H1 & H2 & H3).
    split; [exact H1|]. split; [exact H2|exact H3].
  - destruct (proj2 (checkIn_idempotent Sample.qrA Sample.tokA initial
                       Sample.dbA Sample.recA eq_refl Hid eq_refl) eq_refl
                1000%Z 2000%Z (fun _ => None) (fun _ => None))
      as (_ & H1 & _ & _ & H2 & H3 & _ & H4 & H5).
    split; [exact (H1 eq_refl)|]. split; [exact H2|]. split; [exact H3|].
    split; [exact H4|exact H5].
  - destruct (proj2 (checkIn_idempotent Sample.qrA Sample.tokA initial
                       Sample.dbA Sample.recA eq_refl Hid eq_refl) eq_refl
                1000%Z 2000%Z (fun _ => Some (js "boom")) (fun _ => None))
      as (_ & _ & H1 & _ & H2 & _ & _ & _ & H5).
    split; [exact (H1 (js "boom") eq_refl)|]. split; [exact H2|exact H5].
Defined.

End CheckInWrite.

Section Registration.
Import Generator.

Lemma handleSubmit_stored (env : Env) (st : State) (db : Firestore.Store) :
  isValid (data st) = true -> setDoc_fault env = None ->
  let token := makeToken (rng env) (Some 16%nat) in
  let record := newRecord token (data st) (serverTime env) in
  handleSubmit env st db =
  match toDataURL env (payloadOf record) with
  | None =>
    (mkState (data st) [Fname; Femail; Fphone] (qrUrl st) false (lastToken st)
       (Some (js "Failed to generate QR. Please try again.")),
     <[token := record]> db)
  | Some url =>
    (mkState (data st) [Fname; Femail; Fphone] (Some url) false (Some token)
       (Some (js "RSVP saved and QR generated.")),
     <[token := record]> db)
  end.
Proof.
  intros Hv Hs token record. unfold handleSubmit. cbn [data].
  rewrite Hv, Hs. cbn [negb]. fold token. fold record.
  destruct (toDataURL env (payloadOf record)); reflexivity.
Qed.

(** C3, as the code has it: registration writes the record with an
    unconditional set under its token; whatever the store held under that
    token before, it holds the new record afterwards and registration
    succeeds. *)
Theorem register_sets_unconditionally (env : Env) (st : State)
    (db : Firestore.Store) (u : jsstring)
    (Hvalid : isValid (data st) = true)
    (Hset : setDoc_fault env = None)
    (Hurl : toDataURL env
              (payloadOf (newRecord (makeToken (rng env) (Some 16%nat))
                            (data st) (serverTime env))) = Some u) :
  let token := makeToken (rng env) (Some 16%nat) in
  let record := newRecord token (data st) (serverTime env) in
  let out := handleSubmit env st db in
  out.2 = <[token := record]> db
  /\ out.2 !! token = Some record
  /\ message out.1 = Some (js "RSVP saved and QR generated.")
  /\ lastToken out.1 = Some token
  /\ qrUrl out.1 = Some u.
Proof.
  intros token record out. subst out.
  rewrite (handleSubmit_stored env st db Hvalid Hset). cbv zeta.
  rewrite Hurl. cbn [fst snd message lastToken qrUrl].
  rewrite lookup_insert_eq. auto.
Qed.

Lemma register_sets_unconditionally_witness :
  let out := handleSubmit (Sample.zeros (Some Sample.url)) Sample.form Sample.db0 in
  out.2 = <[Sample.tok0 := newRecord Sample.tok0 Sample.ana 100]> Sample.db0
  /\ out.2 !! Sample.tok0 = Some (newRecord Sample.tok0 Sample.ana 100)
  /\ message out.1 = Some (js "RSVP saved and QR generated.")
  /\ lastToken out.1 = Some Sample.tok0
  /\ qrUrl out.1 = Some Sample.url.
Proof.
  apply (register_sets_unconditionally (Sample.zeros (Some Sample.url))
           Sample.form Sample.db0 Sample.url).
  - reflexivity.
  - reflexivity.
  - reflexivity.
Defined.

(** C3 fails as stated: the token is already Bob's, and the set neither
    fails nor keeps his record; registration reports success and the
    store holds Ana's invited record under Bob's token. *)
Lemma register_is_not_create_if_absent :
  let out := handleSubmit (Sample.zeros (Some Sample.url)) Sample.form Sample.db0 in
  Sample.db0 !! Sample.tok0 = Some Sample.bob
  /\ message out.1 = Some (js "RSVP saved and QR generated.")
  /\ Firestore.name <$> out.2 !! Sample.tok0 = Some (js "Ana")
  /\ Firestore.status <$> out.2 !! Sample.tok0 = Some Firestore.invited
  /\ out.2 !! Sample.tok0 <> Some Sample.bob.
Proof.
  vm_compute. repeat split; try reflexivity. discriminate.
Qed.

(** C10: when the store write has succeeded and the rendering of the
    artifact then fails, the submission reports failure, shows no
    artifact and no token, and the new record stays in the store. *)
Theorem register_not_rolled_back (env : Env) (st : State) (db : Firestore.Store)
    (Hvalid : isValid (data st) = true)
    (Hset : setDoc_fault env = None)
    (Hrender : toDataURL env
                 (payloadOf (newRecord (makeToken (rng env) (Some 16%nat))
                               (data st) (serverTime env))) = None) :
  let token := makeToken (rng env) (Some 16%nat) in
  let record := newRecord token (data st) (serverTime env) in
  let out := handleSubmit env st db in
  message out.1 = Some (js "Failed to generate QR. Please try again.")
  /\ qrUrl out.1 = qrUrl st
  /\ lastToken out.1 = lastToken st
  /\ isGenerating out.1 = false
  /\ out.2 = <[token := record]> db
  /\ out.2 !! token = Some record.
Proof.
  intros token record out. subst out.
  rewrite (handleSubmit_stored env st db Hvalid Hset). cbv zeta.
  rewrite Hrender. cbn [fst snd message lastToken qrUrl isGenerating].
  rewrite lookup_insert_eq. auto 7.
Qed.

Lemma register_not_rolled_back_witness :
  let out := handleSubmit (Sample.zeros None) Sample.form Sample.dbA in
  message out.1 = Some (js "Failed to generate QR. Please try again.")
  /\ qrUrl out.1 = None
  /\ lastToken out.1 = None
  /\ isGenerating out.1 = false
  /\ out.2 = <[Sample.tok0 := newRecord Sample.tok0 Sample.ana 100]> Sample.dbA
  /\ out.2 !! Sample.tok0 = Some (newRecord Sample.tok0 Sample.ana 100).
Proof.
  apply (register_not_rolled_back (Sample.zeros None) Sample.form Sample.dbA);
    reflexivity.
Defined.

End Registration.

Section ScanLoop.
Import Scanner.

Lemma classify_calls (p : Props) (now : Z) (text : jsstring) (sc : Scanner) :
  (nextAllowedRef sc <= now)%Z ->
  decodeCallback p false now (Some text) sc =
  dispatch p text (setNextAllowed (now + cooldownMs p) sc).
Proof.
  intros H. unfold decodeCallback. cbn [negb].
  destruct (Z.ltb_spec now (nextAllowedRef sc)); [lia|]. reflexivity.
Qed.

(** What [dispatch] never touches, and that it always makes a call. *)
Lemma dispatch_frame (p : Props) (text : jsstring) (sc : Scanner) :
  let out := dispatch p text sc in
  nextAllowedRef out.1 = nextAllowedRef sc
  /\ running out.1 = running sc
  /\ isProcessing out.1 = isProcessing sc
  /\ lastScanResult out.1 = lastScanResult sc
  /\ out.2 <> [].
Proof.
  intros out. subst out. unfold dispatch, uncaught.
  destruct (classify text); [|destruct (onResult_fault p text)|];
    cbn; repeat split; discriminate.
Qed.

(** The calls of [dispatch]: a dispatch to [handleCheckIn], or calls of
    [onResult] with the text, followed at most by an exception that
    escapes. *)
Lemma dispatch_calls (p : Props) (text : jsstring) (sc : Scanner) (c : Call) :
  In c (dispatch p text sc).2 ->
  (exists qrData, c = HandleCheckIn qrData /\ classify text = Rsvp_code qrData)
  \/ c = OnResult text
  \/ exists m, c = Escapes m.
Proof.
  unfold dispatch, uncaught.
  destruct (classify text) as [q| |]; [|destruct (onResult_fault p text)|];
    try destruct (onResult_again p text); try destruct (onResult_fault p text);
    cbn [snd In]; intros H;
    repeat (destruct H as [<-|H]; [eauto|]); destruct H.
Qed.

Lemma accepted_hit (p : Props) (now : Z) (text : jsstring) (sc : Scanner) :
  (nextAllowedRef sc <= now)%Z ->
  let out := decodeCallback p false now (Some text) sc in
  nextAllowedRef out.1 = (now + cooldownMs p)%Z /\ out.2 <> [].
Proof.
  intros H out. subst out. rewrite classify_calls by exact H.
  destruct (dispatch_frame p text (setNextAllowed (now + cooldownMs p) sc))
    as (Hn & _ & _ & _ & Hc).
  split; [rewrite Hn; reflexivity|exact Hc].
Qed.

Lemma discarded_hit (p : Props) (seen : bool) (now : Z) (text : jsstring) (sc : Scanner) :
  (now < nextAllowedRef sc)%Z ->
  decodeCallback p seen now (Some text) sc = (sc, []).
Proof.
  intros H. unfold decodeCallback.
  destruct (Z.ltb_spec now (nextAllowedRef sc)); [|lia].
  destruct seen; reflexivity.
Qed.


Lemma plain_discarded (c now : Z) (text : jsstring) (psc : PlainScanner.Scanner) :
  (now < PlainScanner.nextAllowedRef psc)%Z ->
  PlainScanner.decodeCallback c now (Some text) psc = (psc, []).
Proof.
  intros H. unfold PlainScanner.decodeCallback.
  destruct (Z.ltb_spec now (PlainScanner.nextAllowedRef psc)); [reflexivity|lia].
Qed.

Lemma plain_accepted (c now : Z) (text : jsstring) (psc : PlainScanner.Scanner) :
  (PlainScanner.nextAllowedRef psc <= now)%Z ->
  let out := PlainScanner.decodeCallback c now (Some text) psc in
  PlainScanner.nextAllowedRef out.1 = (now + c)%Z /\ out.2 = [text].
Proof.
  intros H out. subst out. unfold PlainScanner.decodeCallback.
  destruct (Z.ltb_spec now (PlainScanner.nextAllowedRef psc)); [lia|].
  split; reflexivity.
Qed.

Lemma feed_cons {S C : Type} (cb : Z -> option jsstring -> S -> S * list C)
    (z : Z) (text : jsstring) (rest : list (Z * jsstring)) (sc : S) :
  feed cb ((z, text) :: rest) sc =
  ((feed cb rest (cb z (Some text) sc).1).1,
   (cb z (Some text) sc).2 :: (feed cb rest (cb z (Some text) sc).1).2).
Proof.
  cbn [feed]. destruct (cb z (Some text) sc) as [sc1 calls]. cbn [fst snd].
  destruct (feed cb rest sc1). reflexivity.
Qed.

(** C4: a hit that arrives before the stored deadline is dropped whatever
    its text, an accepted hit moves the deadline to now + cooldownMs, and
    of four hits at t, t+1, t+199 and t+201 with a cooldown of 200 and the
    deadline initially 0, the first and the fourth pass and the other two
    are dropped; in the plain scanner and in the check-in scanner
    alike. *)
Theorem cooldown_gate (c now : Z) (text : jsstring)
    (psc : PlainScanner.Scanner) (p : Props) (sc : Scanner)
    (t : Z) (x1 x2 x3 x4 : jsstring) (Ht : (0 <= t)%Z) :
  let hits := [(t, x1); (t + 1, x2); (t + 199, x3); (t + 201, x4)]%Z in
  ((now < PlainScanner.nextAllowedRef psc)%Z ->
     PlainScanner.decodeCallback c now (Some text) psc = (psc, []))
  /\ ((now < nextAllowedRef sc)%Z ->
        decodeCallback p false now (Some text) sc = (sc, []))
  /\ ((PlainScanner.nextAllowedRef psc <= now)%Z ->
        PlainScanner.nextAllowedRef
          (PlainScanner.decodeCallback c now (Some text) psc).1 = (now + c)%Z
        /\ (PlainScanner.decodeCallback c now (Some text) psc).2 = [text])
  /\ ((nextAllowedRef sc <= now)%Z ->
        nextAllowedRef (decodeCallback p false now (Some text) sc).1
          = (now + cooldownMs p)%Z
        /\ (decodeCallback p false now (Some text) sc).2 <> [])
  /\ (feed (PlainScanner.decodeCallback 200) hits PlainScanner.initial).2
       = [[x1]; []; []; [x4]]
  /\ exists c1 c4 : list Call,
       (feed (decodeCallback defaultProps false) hits initial).2 = [c1; []; []; c4]
       /\ c1 <> [] /\ c4 <> [].
Proof.
  intros hits.
  split; [apply plain_discarded|].
  split; [apply discarded_hit|].
  split; [apply plain_accepted|].
  split; [apply accepted_hit|].
  subst hits. split.
  - rewrite !feed_cons. cbn [feed snd].
    destruct (plain_accepted 200 t x1 PlainScanner.initial) as [N1 C1];
      [cbn; exact Ht|].
    set (s1 := (PlainScanner.decodeCallback 200 t (Some x1) PlainScanner.initial).1) in *.
    rewrite C1.
    rewrite (plain_discarded 200 (t + 1) x2 s1) by lia. cbn [fst snd].
    rewrite (plain_discarded 200 (t + 199) x3 s1) by lia. cbn [fst snd].
    destruct (plain_accepted 200 (t + 201) x4 s1) as [_ C4]; [lia|].
    rewrite C4. reflexivity.
  - rewrite !feed_cons. cbn [feed snd].
    destruct (accepted_hit defaultProps t x1 initial) as [N1 C1];
      [cbn; exact Ht|].
    set (s1 := (decodeCallback defaultProps false t (Some x1) initial).1) in *.
    cbn [cooldownMs defaultProps] in N1.
    rewrite (discarded_hit defaultProps false (t + 1) x2 s1) by lia. cbn [fst snd].
    rewrite (discarded_hit defaultProps false (t + 199) x3 s1) by lia. cbn [fst snd].
    destruct (accepted_hit defaultProps (t + 201) x4 s1) as [_ C4]; [lia|].
    eexists _, _. split; [reflexivity|]. split; assumption.
Qed.

Lemma cooldown_gate_witness :
  PlainScanner.decodeCallback 200 1100
    (Some (js "second")) (PlainScanner.mkScanner true [] 1200)
  = (PlainScanner.mkScanner true [] 1200, [])
  /\ decodeCallback defaultProps false 1100 (Some (js "second")) (setNextAllowed 1200 initial)
     = (setNextAllowed 1200 initial, [])
  /\ (feed (PlainScanner.decodeCallback 200)
        [(1000, js "a"); (1001, js "b"); (1199, js "c"); (1201, js "d")]%Z
        PlainScanner.initial).2
     = [[js "a"]; []; []; [js "d"]]
  /\ (feed (decodeCallback defaultProps false)
        [(1000, js "a"); (1001, js "b"); (1199, js "c"); (1201, js "d")]%Z
        initial).2
     = [[OnResult (js "a")]; []; []; [OnResult (js "d")]].
Proof.
  pose proof (cooldown_gate 200 1100 (js "second")
                (PlainScanner.mkScanner true [] 1200) defaultProps
                (setNextAllowed 1200 initial)
                1000 (js "a") (js "b") (js "c") (js "d") ltac:(lia)) as H.
  cbv zeta in H. destruct H as (H1 & H2 & _ & _ & H5 & _).
  split; [apply H1; reflexivity|].
  split; [apply H2; reflexivity|].
  split; [exact H5|].
  vm_compute. reflexivity.
Defined.


(** C5, as the code has it: a hit that passes the gate ends in one of
    three ways.  A parsed value whose t is "rsvp" and whose token is a
    non-empty string is handed to handleCheckIn.  A parsed value other than
    null whose t is not "rsvp", or whose token is missing or falsy, passes
    the raw text to onResult and, when that call returns, shows the
    invalid status; when the call throws, the catch block shows the
    foreign status and passes the raw text to onResult once more.  Text
    that does not parse shows the foreign status and passes the raw text to
    onResult.  No exception leaves the callback but one that the parent's
    onResult has thrown. *)
Theorem scan_classification (p : Props) (now : Z) (text : jsstring) (sc : Scanner)
    (Hgate : (nextAllowedRef sc <= now)%Z) :
  let out := decodeCallback p false now (Some text) sc in
  (forall (qrData : JSON.value) (tok : jsstring),
     JSON.parse text = Some qrData ->
     JSON.get qrData (js "t") = Some (Some (JSON.Str (js "rsvp"))) ->
     JSON.get qrData (js "token") = Some (Some (JSON.Str tok)) ->
     tok <> [] ->
     out.2 = [HandleCheckIn qrData])
  /\ (forall (qrData : JSON.value) (kind tok : option JSON.value),
        JSON.parse text = Some qrData ->
        JSON.get qrData (js "t") = Some kind ->
        JSON.get qrData (js "token") = Some tok ->
        is_rsvp kind = false \/ JSON.truthy tok = false ->
        (onResult_fault p text = None ->
           status out.1 = invalidStatus /\ out.2 = [OnResult text])
        /\ (onResult_fault p text <> None ->
              status out.1 = foreignStatus
              /\ out.2 = OnResult text :: uncaught text (onResult_again p text)))
  /\ (JSON.parse text = None ->
        status out.1 = foreignStatus
        /\ out.2 = uncaught text (onResult_fault p text))
  /\ ((exists qrData : JSON.value, out.2 = [HandleCheckIn qrData])
      \/ (status out.1 = invalidStatus /\ out.2 = [OnResult text])
      \/ (status out.1 = foreignStatus
          /\ (out.2 = uncaught text (onResult_fault p text)
              \/ out.2 = OnResult text :: uncaught text (onResult_again p text))))
  /\ (forall m : jsstring, In (Escapes m) out.2 -> onResult_fault p text <> None)
  /\ invalidStatus <> foreignStatus.
Proof.
  intros out. subst out. rewrite classify_calls by exact Hgate.
  unfold dispatch, classify.
  split; [|split; [|split; [|split; [|split]]]].
  - intros qrData tok Hp Hk Ht Hne. rewrite Hp, Hk, Ht.
    destruct tok; [congruence|]. reflexivity.
  - intros qrData kind tok Hp Hk Ht Hor. rewrite Hp, Hk, Ht.
    assert (Hb : is_rsvp kind && JSON.truthy tok = false)
      by (destruct Hor as [H|H]; rewrite H; [reflexivity|apply andb_false_r]).
    rewrite Hb. split.
    + intros Hcb. rewrite Hcb. split; reflexivity.
    + intros Hcb. destruct (onResult_fault p text); [|congruence].
      split; reflexivity.
  - intros Hp. rewrite Hp. split; reflexivity.
  - destruct (JSON.parse text) as [qrData|]; [|cbn; auto].
    destruct (JSON.get qrData (js "t")) as [kind|]; [|cbn; auto].
    destruct (JSON.get qrData (js "token")) as [tok|]; [|cbn; auto].
    destruct (is_rsvp kind && JSON.truthy tok); [cbn; eauto|].
    destruct (onResult_fault p text); cbn; auto.
  - intros m Hin Hcb. revert Hin. unfold uncaught. rewrite Hcb.
    destruct (JSON.parse text) as [qrData|]; [|cbn; intros [|[]]; discriminate].
    destruct (JSON.get qrData (js "t")) as [kind|]; [|cbn; intros [|[]]; discriminate].
    destruct (JSON.get qrData (js "token")) as [tok|]; [|cbn; intros [|[]]; discriminate].
    destruct (is_rsvp kind && JSON.truthy tok); cbn; intros [|[]]; discriminate.
  - discriminate.
Qed.

(** C5 at Ana's payload, at the text of a code of another family, with a
    parent whose callback returns and with one whose callback throws, and
    at the text hello world. *)
Lemma scan_classification_witness :
  (let out := decodeCallback defaultProps false 1000
                (Some (Generator.payloadOf Sample.recA)) initial in
   exists qrData : JSON.value,
     JSON.parse (Generator.payloadOf Sample.recA) = Some qrData
     /\ out.2 = [HandleCheckIn qrData])
  /\ (let text := Sample.menuText in
      let out := decodeCallback defaultProps false 1000 (Some text) initial in
      status out.1 = invalidStatus /\ out.2 = [OnResult text])
  /\ (let text := Sample.menuText in
      let out := decodeCallback Sample.throwingProps false 1000 (Some text) initial in
      status out.1 = foreignStatus
      /\ out.2 = [OnResult text; OnResult text; Escapes (js "boom")])
  /\ (let out := decodeCallback defaultProps false 1000 (Some (js "hello world")) initial in
      status out.1 = foreignStatus /\ out.2 = [OnResult (js "hello world")]).
Proof.
  assert (Hgate : (nextAllowedRef initial <= 1000)%Z) by (cbn; lia).
  assert (Hmenu : JSON.parse Sample.menuText
                  = Some (JSON.Obj [(js "t", JSON.Str (js "menu"));
                                    (js "token", JSON.Str (js "x"))]))
    by (vm_compute; reflexivity).
  split; [|split; [|split]].
  - exists Sample.payloadA. split; [vm_compute; reflexivity|].
    apply (proj1 (scan_classification defaultProps 1000
                    (Generator.payloadOf Sample.recA) initial Hgate)
             Sample.payloadA Sample.tokA);
      [vm_compute; reflexivity | reflexivity | reflexivity | discriminate].
  - apply (proj1 (proj2 (scan_classification defaultProps 1000
                           Sample.menuText initial Hgate))
             (JSON.Obj [(js "t", JSON.Str (js "menu")); (js "token", JSON.Str (js "x"))])
             (Some (JSON.Str (js "menu"))) (Some (JSON.Str (js "x"))));
      [exact Hmenu | reflexivity | reflexivity | left; reflexivity | reflexivity].
  - apply (proj1 (proj2 (scan_classification Sample.throwingProps 1000
                           Sample.menuText initial Hgate))
             (JSON.Obj [(js "t", JSON.Str (js "menu")); (js "token", JSON.Str (js "x"))])
             (Some (JSON.Str (js "menu"))) (Some (JSON.Str (js "x"))));
      [exact Hmenu | reflexivity | reflexivity | left; reflexivity | discriminate].
  - apply (proj1 (proj2 (proj2 (scan_classification defaultProps 1000
                                  (js "hello world") initial Hgate)))).
    vm_compute. reflexivity.
Defined.

(** C5 fails as stated: the text null parses, and has neither kind nor
    token, yet it is reported as a foreign code, not as an invalid RSVP
    code; and a payload of kind "rsvp" whose token is the number 7, not a
    string, is not reported as invalid but handed to handleCheckIn. *)
Lemma null_text_is_foreign :
  let out := decodeCallback defaultProps false 1000 (Some (js "null")) initial in
  let out7 := decodeCallback defaultProps false 1000 (Some Sample.numberToken) initial in
  JSON.parse (js "null") = Some JSON.Null
  /\ status out.1 = foreignStatus
  /\ status out.1 <> invalidStatus
  /\ out.2 = [OnResult (js "null")]
  /\ (exists n : JSON.numlit,
        JSON.parse Sample.numberToken
        = Some (JSON.Obj [(js "t", JSON.Str (js "rsvp")); (js "token", JSON.Num n)])
        /\ out7.2 = [HandleCheckIn
                       (JSON.Obj [(js "t", JSON.Str (js "rsvp")); (js "token", JSON.Num n)])]).
Proof.
  split; [vm_compute; reflexivity|].
  split; [vm_compute; reflexivity|].
  split; [vm_compute; discriminate|].
  split; [vm_compute; reflexivity|].
  eexists. split; vm_compute; reflexivity.
Qed.

(** The callback that [start] registers sees the busy flag of the render
    that created [start], whatever the flag becomes later. *)
Lemma start_captures_flag (p : Props) (sc : Scanner) :
  (start p None sc).1.2 = Some (decodeCallback p (isProcessing sc)).
Proof. reflexivity. Qed.

(** Every run of [handleCheckIn] that comes to its end, whatever the
    store, the world and the parent's callbacks do, ends with the busy
    flag cleared. *)
Lemma handleCheckIn_clears_flag (env : Env) (qrData : JSON.value) (sc : Scanner)
    (db : Firestore.Store) :
  isProcessing (handleCheckIn env qrData sc db).1.1 = false.
Proof.
  unfold handleCheckIn.
  destruct (checkIn env qrData db) as [db' [r|r|e]]; [|reflexivity..].
  destruct (onResult_report env qrData); reflexivity.
Qed.

(** C6, where the code fails it: Start is pressed on the idle page, so
    the callback registered closes over a busy flag that is not set.  Ana's
    code is decoded at time 1000 and dispatched; while that check-in is
    under way, the busy flag set, Bob's code is decoded at time 1300: it
    passes the gate, moves the deadline to 1500, and is dispatched as well:
    two check-ins are in flight at once.  The same hit, given to a callback
    that saw the flag as the page shows it, is dropped. *)
Theorem second_checkIn_dispatched_in_flight :
  let started := start defaultProps None initial in
  let textA := Generator.payloadOf Sample.recA in
  let textB := Generator.payloadOf Sample.recB in
  exists cb : Z -> option jsstring -> Scanner -> Scanner * list Call,
    started.1.2 = Some cb
    /\ isProcessing started.1.1 = false
    /\ (cb 1000%Z (Some textA) started.1.1).2
       = [HandleCheckIn (Generator.scanned Sample.recA)]
    /\ let in_flight := beginCheckIn (cb 1000%Z (Some textA) started.1.1).1 in
       isProcessing in_flight = true
       /\ nextAllowedRef in_flight = 1200%Z
       /\ cb 1300%Z (Some textB) in_flight
          = (setNextAllowed 1500 in_flight,
             [HandleCheckIn (Generator.scanned Sample.recB)])
       /\ decodeCallback defaultProps (isProcessing in_flight) 1300 (Some textB) in_flight
          = (in_flight, []).
Proof.
  eexists. split; [reflexivity|]. split; [reflexivity|].
  split; [vm_compute; reflexivity|].
  split; [reflexivity|]. split; [vm_compute; reflexivity|].
  split; vm_compute; reflexivity.
Qed.

End ScanLoop.

Section EndToEnd.
Import Generator Scanner.

(** X19: registration, a scan of the artifact, and two check-ins in a
    row that the store does not disturb: the scan dispatches the payload,
    the first check-in sets the check-in fields on the stored record,
    reports it to the parent and, when that callback returns, shows
    success; the second finds the record checked in and writes nothing. *)
Theorem register_scan_check_in (genv : Generator.Env) (st : State)
    (db : Firestore.Store) (p : Props) (sc : Scanner) (t z1 z2 : Z)
    (cb1 cb2 : JSON.value -> option jsstring)
    (Hvalid : isValid (data st) = true)
    (Hset : setDoc_fault genv = None)
    (Hgate : (nextAllowedRef sc <= t)%Z) :
  let token := makeToken (rng genv) (Some 16%nat) in
  let record := newRecord token (data st) (serverTime genv) in
  let db1 := (handleSubmit genv st db).2 in
  let first := handleCheckIn (undisturbed z1 cb1) (scanned record) sc db1 in
  let second :=
    handleCheckIn (undisturbed z2 cb2) (scanned record) first.1.1 first.1.2 in
  db1 !! token = Some record
  /\ (decodeCallback p false t (Some (payloadOf record)) sc).2
     = [HandleCheckIn (scanned record)]
  /\ first.1.2 !! token = Some (checkInFields z1 record)
  /\ In (OnResultCheckedIn (scanned record)) first.2
  /\ (cb1 (scanned record) = None -> out_status first = successStatus record)
  /\ (forall m : jsstring, cb1 (scanned record) = Some m ->
        out_status first = failedStatus (Firestore.CallbackFault m))
  /\ out_status second = alreadyStatus record
  /\ second.1.2 = first.1.2
  /\ second.2 = [StatusResetTimer].
Proof.
  intros token record db1 first second.
  assert (Hne : token <> []) by apply makeToken_nonempty.
  assert (Hdb : db1 !! token = Some record).
  { subst db1. rewrite (handleSubmit_stored genv st db Hvalid Hset). cbv zeta.
    fold token. fold record.
    destruct (toDataURL genv (payloadOf record)); apply lookup_insert_eq. }
  split; [exact Hdb|].
  split.
  { rewrite classify_calls by exact Hgate. unfold dispatch.
    rewrite classify_payload by exact Hne. reflexivity. }
  assert (Hrec : Firestore.status record <> Firestore.checked_in) by discriminate.
  assert (Hfirst := handleCheckIn_writes (undisturbed z1 cb1) (scanned record) token
                      sc db1 record record eq_refl Hne eq_refl eq_refl Hdb Hrec Hdb).
  fold first in Hfirst. cbn [undisturbed concurrent now onResult_report] in Hfirst.
  assert (Hst : first.1.2 = <[token := checkInFields z1 record]> db1)
    by (rewrite Hfirst; destruct (cb1 (scanned record)); reflexivity).
  assert (Hlk : first.1.2 !! token = Some (checkInFields z1 record))
    by (rewrite Hst; apply lookup_insert_eq).
  assert (Hsecond := handleCheckIn_already (undisturbed z2 cb2) (scanned record) token
                       first.1.1 first.1.2 (checkInFields z1 record)
                       eq_refl Hne eq_refl Hlk eq_refl).
  fold second in Hsecond.
  split; [exact Hlk|].
  split; [rewrite Hfirst; destruct (cb1 (scanned record)); left; reflexivity|].
  split; [intros Hcb; unfold out_status; rewrite Hfirst, Hcb; reflexivity|].
  split; [intros m Hcb; unfold out_status; rewrite Hfirst, Hcb; reflexivity|].
  unfold out_status. rewrite Hsecond. repeat split; reflexivity.
Qed.

End EndToEnd.

Section FormValidation.
Import Generator.

Lemma span_atoms_app (a rest : jsstring) :
  forallb email_atom a = true ->
  match rest with [] => True | c :: _ => email_atom c = false end ->
  span_atoms (a ++ rest) = (a, rest).
Proof.
  intros Ha Hr. induction a as [|c a IH]; cbn [app span_atoms].
  - destruct rest as [|c r]; [reflexivity|]. cbn [span_atoms]. rewrite Hr. reflexivity.
  - cbn [forallb] in Ha. apply andb_true_iff in Ha as [Hc Ha].
    rewrite Hc, (IH Ha). reflexivity.
Qed.

Lemma span_atoms_split (v : jsstring) :
  v = (span_atoms v).1 ++ (span_atoms v).2
  /\ forallb email_atom (span_atoms v).1 = true.
Proof.
  induction v as [|c v [IH1 IH2]]; [split; reflexivity|].
  cbn [span_atoms]. destruct (email_atom c) eqn:E; [|split; reflexivity].
  destruct (span_atoms v) as [a rest]. cbn [fst snd app forallb] in *.
  rewrite E, IH2. split; [congruence|reflexivity].
Qed.

Lemma email_pattern (v : jsstring) : emailOk v = true <-> email_shape v.
Proof.
  unfold emailOk, email_shape. split.
  - destruct (span_atoms_split v) as [Hv Ha].
    destruct (span_atoms v) as [[|a0 a] [|c0 d]]; try discriminate.
    cbn [fst snd] in Hv, Ha.
    destruct (N.eqb_spec c0 64) as [->|Hne].
    2:{ destruct c0 as [|p]; [discriminate|].
        repeat (destruct p as [p|p|]; try discriminate); congruence. }
    intros H. apply andb_true_iff in H as [Hd Hdot].
    destruct d as [|x tl]; [discriminate|].
    apply existsb_exists in Hdot as (y & Hin & Hy). apply N.eqb_eq in Hy. subst y.
    apply in_split in Hin as (p & q & Hpq).
    assert (Htl : tl <> []) by (intros ->; destruct p; discriminate).
    destruct (exists_last Htl) as (tl' & l & ->).
    rewrite removelast_last in Hpq. subst tl'.
    exists (a0 :: a), (x :: p), (q ++ [l]).
    split; [rewrite Hv; cbn [app]; rewrite <- !app_assoc; reflexivity|].
    split; [discriminate|]. split; [discriminate|].
    split; [destruct q; discriminate|].
    split; [exact Ha|].
    change (x :: (p ++ 46 :: q) ++ [l]) with ((x :: p ++ 46 :: q) ++ [l]) in Hd.
    rewrite forallb_app in Hd. apply andb_true_iff in Hd as [Hd Hl].
    change (x :: p ++ 46 :: q) with ((x :: p) ++ 46 :: q) in Hd.
    rewrite forallb_app in Hd. apply andb_true_iff in Hd as [Hb Hq].
    cbn [forallb] in Hq. apply andb_true_iff in Hq as [_ Hq].
    split; [exact Hb|]. rewrite forallb_app, Hq, Hl. reflexivity.
  - intros (a & b & c & -> & Ha & Hb & Hc & Fa & Fb & Fc).
    rewrite span_atoms_app; [|exact Fa|reflexivity].
    destruct a as [|a0 a]; [congruence|].
    change (64 =? 64) with true.
    assert (Hd : forallb email_atom (b ++ 46 :: c) = true).
    { rewrite forallb_app, Fb. cbn [forallb]. rewrite Fc. reflexivity. }
    destruct b as [|x b]; [congruence|]. cbn [app] in *.
    cbv iota beta. rewrite Hd. cbn [andb].
    apply existsb_exists. exists 46. split; [|reflexivity].
    destruct (exists_last Hc) as (c' & l & ->).
    change (b ++ 46 :: c' ++ [l]) with (b ++ (46 :: c') ++ [l]).
    rewrite app_assoc, removelast_last. apply in_or_app. right. left. reflexivity.
Qed.

(** X1: [emailOk] accepts exactly the strings made of a local part, an
    at sign, a domain part, a dot and a last part, the three parts
    non-empty and free of white space and of at signs. *)
Theorem emailOk_shape (v : jsstring) : emailOk v = true <-> email_shape v.
Proof. apply email_pattern. Qed.

End FormValidation.

Section Trimming.
Import Generator.

Lemma trimStart_split (s : jsstring) :
  exists p : jsstring, s = p ++ trimStart s /\ forallb is_space p = true.
Proof.
  induction s as [|c s (p & Hp & Fp)]; [exists []; split; reflexivity|].
  cbn [trimStart]. destruct (is_space c) eqn:E.
  - exists (c :: p). cbn [app forallb]. rewrite E, Fp. split; [congruence|reflexivity].
  - exists []. split; reflexivity.
Qed.

Lemma trimStart_head (s : jsstring) (c : N) :
  head (trimStart s) = Some c -> is_space c = false.
Proof.
  induction s as [|d s IH]; [discriminate|]. cbn [trimStart].
  destruct (is_space d) eqn:E; [exact IH|]. intros [= <-]. exact E.
Qed.

Lemma trimStart_clean (s : jsstring) :
  match s with [] => True | c :: _ => is_space c = false end -> trimStart s = s.
Proof. destruct s as [|c s]; [reflexivity|]. cbn [trimStart]. intros ->. reflexivity. Qed.

(** [trim] removes a run of white space at each end and nothing else. *)
Lemma trim_split (s : jsstring) :
  exists p q : jsstring,
    s = p ++ trim s ++ q /\ forallb is_space p = true /\ forallb is_space q = true.
Proof.
  unfold trim. destruct (trimStart_split s) as (p & Hp & Fp).
  destruct (trimStart_split (rev (trimStart s))) as (q & Hq & Fq).
  exists p, (rev q). split; [|split; [exact Fp|]].
  - rewrite <- rev_app_distr, <- Hq, rev_involutive. exact Hp.
  - rewrite forallb_forall in Fq |- *. intros x Hx. apply Fq. apply in_rev. exact Hx.
Qed.

Lemma head_rev {A : Type} (l : list A) : head (rev l) = last l.
Proof.
  induction l as [|a l IH] using rev_ind; [reflexivity|].
  rewrite rev_app_distr, last_snoc. reflexivity.
Qed.

Lemma last_rev {A : Type} (l : list A) : last (rev l) = head l.
Proof. rewrite <- head_rev, rev_involutive. reflexivity. Qed.

Lemma last_app_r {A : Type} (p l : list A) : l <> [] -> last (p ++ l) = last l.
Proof.
  intros Hl. destruct (exists_last Hl) as (l' & x & ->).
  rewrite app_assoc, !last_snoc. reflexivity.
Qed.

(** What [trim] returns neither starts nor ends with white space. *)
Lemma trim_edges (s : jsstring) (c : N) :
  head (trim s) = Some c \/ last (trim s) = Some c -> is_space c = false.
Proof.
  unfold trim. set (u := trimStart s). set (w := trimStart (rev u)).
  rewrite head_rev, last_rev. intros [H|H].
  - destruct (trimStart_split (rev u)) as (p & Hp & _). fold w in Hp.
    assert (Hw : w <> []) by (intros E; rewrite E in H; discriminate).
    rewrite <- (last_app_r p w Hw), <- Hp, last_rev in H.
    exact (trimStart_head s c H).
  - exact (trimStart_head (rev u) c H).
Qed.

Lemma trim_clean (s : jsstring) :
  forallb (fun c => negb (is_space c)) s = true -> trim s = s.
Proof.
  intros H. unfold trim.
  assert (Hs : trimStart s = s).
  { apply trimStart_clean. destruct s as [|c s]; [exact I|].
    cbn [forallb] in H. apply andb_true_iff in H as [H _].
    apply negb_true_iff in H. exact H. }
  rewrite Hs. rewrite trimStart_clean; [apply rev_involutive|].
  destruct (rev s) as [|c r] eqn:E; [exact I|].
  rewrite forallb_forall in H. apply negb_true_iff. apply H.
  apply in_rev. rewrite E. left. reflexivity.
Qed.

End Trimming.

Section ValidForms.
Import Generator.

(** A form is valid exactly when its trimmed name, e-mail and phone are
    non-empty, the e-mail and the phone match their patterns, and the
    confirmation box is ticked. *)
Lemma isValid_spec (data : FormData) :
  isValid data = true <->
  trim (f_name data) <> []
  /\ trim (f_email data) <> [] /\ emailOk (f_email data) = true
  /\ trim (f_phone data) <> [] /\ phoneOk (f_phone data) = true
  /\ confirmComing data = true.
Proof.
  unfold isValid, errors.
  destruct (trim (f_name data)) as [|n0 n]; cbn [app].
  { split; [discriminate|]. intros (H & _). congruence. }
  destruct (trim (f_email data)) as [|e0 e]; cbn [app].
  { split; [discriminate|]. intros (_ & H & _). congruence. }
  destruct (emailOk (f_email data)); cbn [app].
  2:{ split; [discriminate|]. intros (_ & _ & H & _). discriminate. }
  destruct (trim (f_phone data)) as [|p0 p]; cbn [app].
  { split; [discriminate|]. intros (_ & _ & _ & H & _). congruence. }
  destruct (phoneOk (f_phone data)); cbn [app].
  2:{ split; [discriminate|]. intros (_ & _ & _ & _ & H & _). discriminate. }
  destruct (confirmComing data).
  - split; [|reflexivity]. intros _. repeat split; discriminate.
  - split; [discriminate|]. intros (_ & _ & _ & _ & _ & H). discriminate.
Qed.

Lemma email_atom_no_space (l : jsstring) :
  forallb email_atom l = true -> forallb (fun c => negb (is_space c)) l = true.
Proof.
  intros H. rewrite forallb_forall in H |- *. intros x Hx.
  specialize (H x Hx). unfold email_atom in H.
  apply andb_true_iff in H as [H _]. exact H.
Qed.

Lemma emailOk_no_space (v : jsstring) :
  emailOk v = true -> forallb (fun c => negb (is_space c)) v = true.
Proof.
  intros H. apply email_pattern in H as (a & b & c & -> & _ & _ & _ & Fa & Fb & Fc).
  apply email_atom_no_space in Fa, Fb, Fc.
  rewrite forallb_app, Fa. cbn [forallb andb].
  rewrite forallb_app, Fb. cbn [forallb]. rewrite Fc. reflexivity.
Qed.

Lemma forallb_trim (P : N -> bool) (s : jsstring) :
  forallb P s = true -> forallb P (trim s) = true.
Proof.
  intros H. destruct (trim_split s) as (p & q & Hs & _ & _).
  rewrite Hs, !forallb_app in H.
  apply andb_true_iff in H as [_ H]. apply andb_true_iff in H as [H _]. exact H.
Qed.

Lemma length_trim (s : jsstring) : (length (trim s) <= length s)%nat.
Proof.
  destruct (trim_split s) as (p & q & Hs & _ & _).
  rewrite Hs at 2. rewrite !length_app. lia.
Qed.

(** X2: the record that registration builds from a valid form has coming
    set, a non-empty name that neither starts nor ends with white space,
    the e-mail exactly as it was typed, and a phone of 1 to 15 characters,
    each a digit, a plus, a minus or white space, that neither starts nor
    ends with white space. *)
Theorem valid_record_fields (data : FormData) (tok : jsstring) (z : Z)
    (Hvalid : isValid data = true) :
  let r := newRecord tok data z in
  Firestore.coming r = true
  /\ Firestore.name r <> []
  /\ (forall c : N, head (Firestore.name r) = Some c \/ last (Firestore.name r) = Some c ->
        is_space c = false)
  /\ Firestore.email r = f_email data
  /\ (1 <= length (Firestore.phone r) <= 15)%nat
  /\ forallb phone_char (Firestore.phone r) = true
  /\ (forall c : N, head (Firestore.phone r) = Some c \/ last (Firestore.phone r) = Some c ->
        is_space c = false).
Proof.
  intros r. subst r. cbn [newRecord Firestore.coming Firestore.name Firestore.email
                            Firestore.phone].
  apply isValid_spec in Hvalid as (Hn & _ & He & Hp & Hph & Hc).
  split; [exact Hc|]. split; [exact Hn|].
  split; [apply trim_edges|].
  split; [apply trim_clean, emailOk_no_space, He|].
  unfold phoneOk in Hph. apply andb_true_iff in Hph as [Hlen Hall].
  apply andb_true_iff in Hlen as [_ Hmax]. apply Nat.leb_le in Hmax.
  split.
  { pose proof (length_trim (f_phone data)).
    destruct (trim (f_phone data)); [congruence|]. cbn [length] in *. lia. }
  split; [apply forallb_trim; exact Hall|].
  apply trim_edges.
Qed.

End ValidForms.

Section SubmitPaths.
Import Generator.

Lemma valid_record_fields_witness :
  let r := newRecord Sample.tokA Sample.ana 100 in
  Firestore.coming r = true
  /\ Firestore.name r <> []
  /\ (forall c : N, head (Firestore.name r) = Some c \/ last (Firestore.name r) = Some c ->
        is_space c = false)
  /\ Firestore.email r = f_email Sample.ana
  /\ (1 <= length (Firestore.phone r) <= 15)%nat
  /\ forallb phone_char (Firestore.phone r) = true
  /\ (forall c : N, head (Firestore.phone r) = Some c \/ last (Firestore.phone r) = Some c ->
        is_space c = false).
Proof. apply (valid_record_fields Sample.ana Sample.tokA 100). reflexivity. Defined.

(** X3: a submission of a form that is not valid, or whose store write
    is rejected, leaves the store as it was and the artifact and the token
    on the page as they were: none is added, and those of an earlier
    submission stay shown.  The first clears the message, the second sets
    the failure message and ends with the generating flag off. *)
Theorem submit_without_write (env : Env) (st : State) (db : Firestore.Store)
    (Hno : isValid (data st) = false \/ setDoc_fault env <> None) :
  let out := handleSubmit env st db in
  out.2 = db
  /\ qrUrl out.1 = qrUrl st
  /\ lastToken out.1 = lastToken st
  /\ data out.1 = data st
  /\ (isValid (data st) = false ->
        message out.1 = None /\ isGenerating out.1 = isGenerating st)
  /\ (isValid (data st) = true ->
        message out.1 = Some (js "Failed to generate QR. Please try again.")
        /\ isGenerating out.1 = false).
Proof.
  intros out. subst out. unfold handleSubmit. cbn [data].
  destruct (isValid (data st)) eqn:Ev; cbn [negb].
  - destruct Hno as [H|H]; [discriminate|].
    destruct (setDoc_fault env); [|congruence].
    cbn [fst snd failed qrUrl lastToken data message isGenerating].
    repeat split; try reflexivity; intros; discriminate.
  - cbn [fst snd qrUrl lastToken data message isGenerating].
    repeat split; try reflexivity; intros; discriminate.
Qed.

(** X3 at the empty form, at a rejected write on a fresh page, and at a
    rejected write on a page that shows the artifact of an earlier
    submission. *)
Lemma submit_without_write_witness :
  (let out := handleSubmit (Sample.zeros (Some Sample.url))
                (mkState initialData [] None false None None) Sample.db0 in
   out.2 = Sample.db0 /\ message out.1 = None /\ lastToken out.1 = None)
  /\ (let out := handleSubmit
                   Sample.setFails
                   Sample.form Sample.db0 in
      out.2 = Sample.db0
      /\ message out.1 = Some (js "Failed to generate QR. Please try again.")
      /\ lastToken out.1 = None)
  /\ (let shown := mkState Sample.ana [] (Some Sample.url) false (Some Sample.tok0) None in
      let out := handleSubmit Sample.setFails shown Sample.db0 in
      out.2 = Sample.db0
      /\ message out.1 = Some (js "Failed to generate QR. Please try again.")
      /\ qrUrl out.1 = Some Sample.url
      /\ lastToken out.1 = Some Sample.tok0).
Proof.
  assert (Hf : setDoc_fault Sample.setFails <> None) by discriminate.
  split; [|split].
  - intros out.
    destruct (submit_without_write (Sample.zeros (Some Sample.url))
                (mkState initialData [] None false None None) Sample.db0
                (or_introl eq_refl)) as (H1 & _ & H3 & _ & H5 & _).
    destruct (H5 eq_refl) as [H5' _].
    split; [exact H1|]. split; [exact H5'|exact H3].
  - intros out.
    destruct (submit_without_write _ Sample.form Sample.db0 (or_intror Hf))
      as (H1 & _ & H3 & _ & _ & H6).
    assert (Hv : isValid (data Sample.form) = true) by reflexivity.
    destruct (H6 Hv) as [H6' _].
    split; [exact H1|]. split; [exact H6'|exact H3].
  - intros shown out.
    destruct (submit_without_write Sample.setFails shown Sample.db0 (or_intror Hf))
      as (H1 & H2 & H3 & _ & _ & H6).
    assert (Hv : isValid (data shown) = true) by reflexivity.
    destruct (H6 Hv) as [H6' _].
    split; [exact H1|]. split; [exact H6'|]. split; [exact H2|exact H3].
Defined.

(** X4: whatever a submission does, it leaves every document other than
    the one under the generated token as it was. *)
Theorem submit_frame (env : Env) (st : State) (db : Firestore.Store) (k : jsstring)
    (Hk : k <> makeToken (rng env) (Some 16%nat)) :
  (handleSubmit env st db).2 !! k = db !! k.
Proof.
  unfold handleSubmit. cbn [data].
  destruct (negb (isValid (data st))); [reflexivity|].
  destruct (setDoc_fault env); [reflexivity|].
  destruct (toDataURL env _); cbn [snd]; unfold Firestore.setDoc;
    apply lookup_insert_ne; congruence.
Qed.

Lemma submit_frame_witness :
  (handleSubmit (Sample.zeros (Some Sample.url)) Sample.form Sample.dbA).2 !! Sample.tokA
  = Sample.dbA !! Sample.tokA.
Proof.
  apply (submit_frame (Sample.zeros (Some Sample.url)) Sample.form Sample.dbA Sample.tokA).
  vm_compute. discriminate.
Defined.

(** After Reset the form is not valid, so a submission that follows it
    writes nothing and issues no token. *)
Lemma reset_then_submit (env : Env) (st : State) (db : Firestore.Store) :
  let out := handleSubmit env (resetAll st) db in
  out.2 = db /\ lastToken out.1 = None /\ qrUrl out.1 = None /\ message out.1 = None.
Proof. repeat split; reflexivity. Qed.

End SubmitPaths.

Section TokenBias.
Import Generator.

Lemma all_bytes_complete (b : byte) : In b all_bytes.
Proof. destruct b; vm_compute; tauto. Qed.

Lemma all_bytes_length : length all_bytes = 256%nat.
Proof. vm_compute. reflexivity. Qed.

Lemma preimages_table :
  forallb (fun i => match alphabet !! i with
                    | Some c => Nat.eqb (preimages c) (if (i <? 8)%nat then 5 else 4)
                    | None => false
                    end) (seq 0 62) = true.
Proof. vm_compute. reflexivity. Qed.

(** X5: the reduction modulo 62 is not uniform: of the 256 byte values,
    five give each of the symbols 0 to 7 and four give each of the other
    54 symbols. *)
Theorem makeToken_bias (i : nat) (c : N) (Hc : alphabet !! i = Some c) :
  preimages c = if (i <? 8)%nat then 5%nat else 4%nat.
Proof.
  assert (Hi : (i < 62)%nat).
  { apply lookup_lt_Some in Hc. exact Hc. }
  pose proof preimages_table as H. rewrite forallb_forall in H.
  specialize (H i). rewrite Hc in H.
  apply Nat.eqb_eq. apply H. apply in_seq. lia.
Qed.

Lemma makeToken_bias_witness :
  preimages 48 = 5%nat /\ preimages 90 = 4%nat.
Proof.
  split.
  - apply (makeToken_bias 0 48). reflexivity.
  - apply (makeToken_bias 61 90). reflexivity.
Defined.

End TokenBias.

Section CheckInPaths.
Import Scanner.

(** The four ways the [try] block can end, with the store each leaves. *)
Lemma checkIn_cases (env : Env) (qrData : JSON.value) (db : Firestore.Store) :
  (exists e, checkIn env qrData db = (db, Raised e))
  \/ (exists e, checkIn env qrData db = (concurrent env db, Raised e))
  \/ (exists id r, db !! id = Some r /\ Firestore.status r = Firestore.checked_in
        /\ checkIn env qrData db = (db, AlreadyIn r))
  \/ (exists id r cur,
        db !! id = Some r /\ Firestore.status r <> Firestore.checked_in
        /\ concurrent env db !! id = Some cur
        /\ checkIn env qrData db
           = (<[id := checkInFields (now env) cur]> (concurrent env db), CheckedIn r)).
Proof.
  unfold checkIn.
  destruct (JSON.get qrData (js "token")) as [tok|]; [|left; eauto].
  destruct (negb (JSON.truthy tok)); [left; eauto|].
  destruct tok as [[| | |id| |]|]; try (left; eauto; fail).
  destruct (getDoc_fault env); [left; eauto|].
  unfold Firestore.getDoc, Firestore.updateDoc.
  destruct (db !! id) as [r|] eqn:Er; [|left; eauto].
  destruct (decide _) as [Hs|Hs]; [right; right; left; eauto|].
  destruct (updateDoc_fault env); [right; left; eauto|].
  destruct (concurrent env db !! id) as [cur|] eqn:Ec; [|right; left; eauto].
  right. right. right. exists id, r, cur. auto.
Qed.

(** The [try] block against the store raises no exception of the
    parent's callback: that one comes after the write. *)
Lemma checkIn_raises (env : Env) (qrData : JSON.value) (db d : Firestore.Store)
    (e : Firestore.Error) :
  checkIn env qrData db = (d, Raised e) ->
  forall m : jsstring, e <> Firestore.CallbackFault m.
Proof.
  unfold checkIn, Firestore.getDoc, Firestore.updateDoc.
  destruct (JSON.get qrData (js "token")) as [tok|]; [|intros [= _ <-]; discriminate].
  destruct (negb (JSON.truthy tok)); [intros [= _ <-]; discriminate|].
  destruct tok as [[| | |id| |]|]; try (intros [= _ <-]; discriminate).
  destruct (getDoc_fault env); [intros [= _ <-]; discriminate|].
  destruct (db !! id) as [r|]; [|intros [= _ <-]; discriminate].
  destruct (decide _); [discriminate|].
  destruct (updateDoc_fault env); [intros [= _ <-]; discriminate|].
  destruct (concurrent env db !! id); [discriminate|intros [= _ <-]; discriminate].
Qed.

Lemma handleCheckIn_unfold (env : Env) (qrData : JSON.value) (sc : Scanner)
    (db : Firestore.Store) :
  handleCheckIn env qrData sc db =
  match (checkIn env qrData db).2 with
  | AlreadyIn r =>
    (setIsProcessing false (setStatus (alreadyStatus r) (beginCheckIn sc)),
     (checkIn env qrData db).1, [StatusResetTimer])
  | CheckedIn r =>
    match onResult_report env qrData with
    | None =>
      (setIsProcessing false (welcome r (beginCheckIn sc)),
       (checkIn env qrData db).1, [OnResultCheckedIn qrData; StatusResetTimer])
    | Some m =>
      (setIsProcessing false
         (setStatus (failedStatus (Firestore.CallbackFault m))
            (welcome r (beginCheckIn sc))),
       (checkIn env qrData db).1,
       [OnResultCheckedIn qrData; OnError (Firestore.CallbackFault m); StatusResetTimer])
    end
  | Raised e =>
    (setIsProcessing false (setStatus (failedStatus e) (beginCheckIn sc)),
     (checkIn env qrData db).1, [OnError e; StatusResetTimer])
  end.
Proof.
  unfold handleCheckIn.
  destruct (checkIn env qrData db) as [db' [r|r|e]]; [|reflexivity..].
  destruct (onResult_report env qrData); reflexivity.
Qed.

(** X6: a run that calls onError shows the error's message and clears
    the busy flag.  When the error is an exception of the parent's
    onResult, the write has landed before it; with every other error the
    run has written nothing: the store is as the run found it, or as other
    clients left it, and onError is the run's only call to the parent. *)
Theorem checkIn_error_store (env : Env) (qrData : JSON.value)
    (sc : Scanner) (db : Firestore.Store) (e : Firestore.Error)
    (Herr : In (OnError e) (handleCheckIn env qrData sc db).2) :
  let out := handleCheckIn env qrData sc db in
  status out.1.1 = failedStatus e
  /\ isProcessing out.1.1 = false
  /\ ((exists m : jsstring,
         e = Firestore.CallbackFault m
         /\ onResult_report env qrData = Some m
         /\ out.2 = [OnResultCheckedIn qrData; OnError e; StatusResetTimer]
         /\ exists (id : jsstring) (cur : Firestore.Rsvp),
              concurrent env db !! id = Some cur
              /\ out.1.2 = <[id := checkInFields (now env) cur]> (concurrent env db))
      \/ ((forall m : jsstring, e <> Firestore.CallbackFault m)
          /\ (out.1.2 = db \/ out.1.2 = concurrent env db)
          /\ out.2 = [OnError e; StatusResetTimer])).
Proof.
  intros out. subst out. revert Herr. rewrite handleCheckIn_unfold.
  destruct (checkIn_cases env qrData db)
    as [[e' H]|[[e' H]|[(id & r & _ & _ & H)|(id & r & cur & _ & _ & Hc & H)]]];
    rewrite H; cbn [fst snd].
  - intros [[= <-]|[|[]]]; [|discriminate].
    split; [reflexivity|]. split; [reflexivity|]. right.
    split; [exact (checkIn_raises env qrData db db e' H)|auto].
  - intros [[= <-]|[|[]]]; [|discriminate].
    split; [reflexivity|]. split; [reflexivity|]. right.
    split; [exact (checkIn_raises env qrData db _ e' H)|auto].
  - intros [|[]]. discriminate.
  - destruct (onResult_report env qrData) as [m|]; cbn [fst snd].
    + intros [|[[= <-]|[|[]]]]; try discriminate.
      split; [reflexivity|]. split; [reflexivity|]. left.
      exists m. split; [reflexivity|]. split; [reflexivity|]. split; [reflexivity|].
      exists id, cur. split; [exact Hc|reflexivity].
    + intros [|[|[]]]; discriminate.
Qed.

(** X6 at a token without a record, and at a parent whose callback
    throws. *)
Lemma checkIn_error_store_witness :
  (let out := handleCheckIn (quiet 7) Sample.qrA initial Sample.db0 in
   status out.1.1 = failedStatus (Firestore.Thrown (js "RSVP not found"))
   /\ isProcessing out.1.1 = false)
  /\ (let out := handleCheckIn (Sample.throwing 7) Sample.qrA initial Sample.dbA in
      status out.1.1 = failedStatus (Firestore.CallbackFault (js "boom"))
      /\ isProcessing out.1.1 = false
      /\ Firestore.status <$> out.1.2 !! Sample.tokA = Some Firestore.checked_in).
Proof.
  split.
  - assert (H : In (OnError (Firestore.Thrown (js "RSVP not found")))
                  (handleCheckIn (quiet 7) Sample.qrA initial Sample.db0).2)
      by (vm_compute; left; reflexivity).
    destruct (checkIn_error_store (quiet 7) Sample.qrA initial Sample.db0 _ H)
      as (H1 & H2 & _).
    split; [exact H1|exact H2].
  - assert (H : In (OnError (Firestore.CallbackFault (js "boom")))
                  (handleCheckIn (Sample.throwing 7) Sample.qrA initial Sample.dbA).2)
      by (vm_compute; right; left; reflexivity).
    destruct (checkIn_error_store (Sample.throwing 7) Sample.qrA initial Sample.dbA _ H)
      as (H1 & H2 & _).
    split; [exact H1|]. split; [exact H2|]. vm_compute. reflexivity.
Defined.

End CheckInPaths.

Section CheckInStore.
Import Scanner.

(** X7: a token that is a non-empty string without a solidus, so that
    it is the id of the document that doc names, and with no document
    behind it: the run fails with "RSVP not found", passes that error to
    onError, and leaves the store as it was. *)
Theorem checkIn_unknown_token (env : Env) (qrData : JSON.value) (id : jsstring)
    (sc : Scanner) (db : Firestore.Store)
    (Htoken : JSON.get qrData (js "token") = Some (Some (JSON.Str id)))
    (Hid : id <> [])
    (Hpath : ~ In 47 id)
    (Hget : getDoc_fault env = None)
    (Hnone : db !! id = None) :
  let out := handleCheckIn env qrData sc db in
  out.1.2 = db
  /\ status out.1.1 = failedStatus (Firestore.Thrown (js "RSVP not found"))
  /\ out.2 = [OnError (Firestore.Thrown (js "RSVP not found")); StatusResetTimer]
  /\ isProcessing out.1.1 = false.
Proof.
  intros out. subst out. unfold handleCheckIn.
  rewrite (checkIn_steps env qrData id Htoken Hid), Hget, Hnone. cbn. auto.
Qed.

Lemma checkIn_unknown_token_witness :
  let out := handleCheckIn (quiet 7) Sample.qrA initial Sample.db0 in
  out.1.2 = Sample.db0
  /\ status out.1.1 = failedStatus (Firestore.Thrown (js "RSVP not found"))
  /\ out.2 = [OnError (Firestore.Thrown (js "RSVP not found")); StatusResetTimer]
  /\ isProcessing out.1.1 = false.
Proof.
  assert (Hid : Sample.tokA <> []) by discriminate.
  assert (Hpath : ~ In 47 Sample.tokA)
    by (vm_compute; intros H; repeat (destruct H as [H|H]; [discriminate|]); exact H).
  apply (checkIn_unknown_token (quiet 7) Sample.qrA Sample.tokA initial Sample.db0
           eq_refl Hid Hpath eq_refl).
  vm_compute. reflexivity.
Defined.

(** X8: a payload other than null whose token is missing or falsy (the
    empty string, false, null, zero): the run fails with "Invalid QR code:
    No token found" without reading the store. *)
Theorem checkIn_no_token (env : Env) (qrData : JSON.value) (tok : option JSON.value)
    (sc : Scanner) (db : Firestore.Store)
    (Htoken : JSON.get qrData (js "token") = Some tok)
    (Hfalsy : JSON.truthy tok = false) :
  let out := handleCheckIn env qrData sc db in
  out.1.2 = db
  /\ status out.1.1
     = failedStatus (Firestore.Thrown (js "Invalid QR code: No token found"))
  /\ out.2 = [OnError (Firestore.Thrown (js "Invalid QR code: No token found"));
              StatusResetTimer].
Proof.
  intros out. subst out. unfold handleCheckIn, checkIn.
  rewrite Htoken, Hfalsy. cbn. auto.
Qed.

Lemma checkIn_no_token_witness :
  let out := handleCheckIn (quiet 7) (JSON.Obj [(js "t", JSON.Str (js "rsvp"))])
               initial Sample.dbA in
  out.1.2 = Sample.dbA
  /\ status out.1.1
     = failedStatus (Firestore.Thrown (js "Invalid QR code: No token found"))
  /\ out.2 = [OnError (Firestore.Thrown (js "Invalid QR code: No token found"));
              StatusResetTimer].
Proof.
  apply (checkIn_no_token (quiet 7) (JSON.Obj [(js "t", JSON.Str (js "rsvp"))]) None
           initial Sample.dbA); reflexivity.
Defined.

(** What a run does to one document when no other client writes in
    between: nothing, or the check-in field set on a document that was
    not checked in. *)
Lemma handleCheckIn_document (env : Env) (qrData : JSON.value) (sc : Scanner)
    (db : Firestore.Store) (k : jsstring) :
  (forall d : Firestore.Store, concurrent env d = d) ->
  let db' := (handleCheckIn env qrData sc db).1.2 in
  db' !! k = db !! k
  \/ exists r : Firestore.Rsvp,
       db !! k = Some r /\ Firestore.status r <> Firestore.checked_in
       /\ db' !! k = Some (checkInFields (now env) r).
Proof.
  intros Hq db'. subst db'. rewrite handleCheckIn_store.
  destruct (checkIn_cases env qrData db)
    as [[e' H]|[[e' H]|[(id & r & _ & _ & H)|(id & r & cur & Hr & Hs & Hc & H)]]];
    rewrite H; cbn [fst snd]; rewrite ?Hq; try (left; reflexivity).
  rewrite Hq in Hc. assert (cur = r) by congruence. subst cur.
  destruct (decide (k = id)) as [->|Hk].
  - right. exists r. rewrite lookup_insert_eq. auto.
  - left. apply lookup_insert_ne. congruence.
Qed.

(** X10: with no other client writing in between, a run neither adds
    nor removes a document, and a document it changes keeps its t, token,
    name, email, phone and createdAt. *)
Theorem checkIn_keeps_documents (env : Env) (qrData : JSON.value) (sc : Scanner)
    (db : Firestore.Store) (k : jsstring)
    (Hquiet : forall d : Firestore.Store, concurrent env d = d) :
  let db' := (handleCheckIn env qrData sc db).1.2 in
  match db !! k, db' !! k with
  | None, None => True
  | Some r, Some r' =>
    Firestore.t r' = Firestore.t r
    /\ Firestore.token r' = Firestore.token r
    /\ Firestore.name r' = Firestore.name r
    /\ Firestore.email r' = Firestore.email r
    /\ Firestore.phone r' = Firestore.phone r
    /\ Firestore.createdAt r' = Firestore.createdAt r
  | _, _ => False
  end.
Proof.
  intros db'. subst db'.
  destruct (handleCheckIn_document env qrData sc db k Hquiet) as [H|(r & Hr & _ & H)];
    cbv zeta in H; rewrite H.
  - destruct (db !! k); auto 7.
  - rewrite Hr. cbn. auto 7.
Qed.

Lemma checkIn_keeps_documents_witness :
  match Sample.dbA !! Sample.tokA,
        (handleCheckIn (quiet 1000) Sample.qrA initial Sample.dbA).1.2 !! Sample.tokA with
  | None, None => True
  | Some r, Some r' =>
    Firestore.t r' = Firestore.t r
    /\ Firestore.token r' = Firestore.token r
    /\ Firestore.name r' = Firestore.name r
    /\ Firestore.email r' = Firestore.email r
    /\ Firestore.phone r' = Firestore.phone r
    /\ Firestore.createdAt r' = Firestore.createdAt r
  | _, _ => False
  end.
Proof.
  apply (checkIn_keeps_documents (quiet 1000) Sample.qrA initial Sample.dbA Sample.tokA).
  reflexivity.
Defined.

Lemma checkIns_terminal (runs : list (Env * JSON.value)) :
  Forall (fun run => forall d : Firestore.Store, concurrent run.1 d = d) runs ->
  forall (sc : Scanner) (db : Firestore.Store) (k : jsstring) (r : Firestore.Rsvp),
    db !! k = Some r -> Firestore.status r = Firestore.checked_in ->
    (checkIns runs sc db).2 !! k = Some r.
Proof.
  induction runs as [|[env qrData] runs IH]; intros Hq sc db k r Hr Hs.
  - exact Hr.
  - cbn [checkIns]. apply Forall_cons in Hq as [Hq Hqs]. cbn [fst] in Hq.
    apply (IH Hqs); [|exact Hs].
    destruct (handleCheckIn_document env qrData sc db k Hq) as [H|(r0 & Hr0 & Hn & _)].
    + cbv zeta in H. rewrite H. exact Hr.
    + congruence.
Qed.

(** X11: checked_in is terminal: whatever is scanned afterwards, and
    however often, a record that is checked in stays exactly as it is
    (same checkedInAt) through any sequence of runs that no other client
    interleaves with. *)
Theorem checked_in_is_terminal (runs : list (Env * JSON.value))
    (sc : Scanner) (db : Firestore.Store) (k : jsstring) (r : Firestore.Rsvp)
    (Hquiet : Forall (fun run => forall d : Firestore.Store, concurrent run.1 d = d) runs)
    (Hr : db !! k = Some r)
    (Hs : Firestore.status r = Firestore.checked_in) :
  (checkIns runs sc db).2 !! k = Some r.
Proof. exact (checkIns_terminal runs Hquiet sc db k r Hr Hs). Qed.

Lemma checked_in_is_terminal_witness :
  let db := Sample.otherStation Sample.dbA in
  (checkIns [(quiet 2000, Sample.qrA); (quiet 3000, Sample.payloadA)] initial db).2
    !! Sample.tokA
  = Some (checkInFields 1000 Sample.recA).
Proof.
  apply (checked_in_is_terminal
           [(quiet 2000, Sample.qrA); (quiet 3000, Sample.payloadA)]
           initial (Sample.otherStation Sample.dbA) Sample.tokA
           (checkInFields 1000 Sample.recA)).
  - repeat constructor.
  - vm_compute. reflexivity.
  - reflexivity.
Defined.

(** X12: of the scanned payload a run reads nothing but its token; the
    payload as a whole goes into the report to the parent's onResult and
    nowhere else.  Two payloads with the same token, on whose reports the
    parent's callback does the same, leave the same component and the same
    store, and make the same calls but for the payload in the report. *)
Theorem checkIn_reads_token_only (env : Env) (q1 q2 : JSON.value)
    (sc : Scanner) (db : Firestore.Store)
    (Hsame : JSON.get q1 (js "token") = JSON.get q2 (js "token"))
    (Hcb : onResult_report env q1 = onResult_report env q2) :
  (handleCheckIn env q1 sc db).1 = (handleCheckIn env q2 sc db).1
  /\ (handleCheckIn env q2 sc db).2
     = map (retarget q2) (handleCheckIn env q1 sc db).2
  /\ (forall c : Call, In c (handleCheckIn env q1 sc db).2 ->
        c = OnResultCheckedIn q1 \/ retarget q2 c = c).
Proof.
  assert (H : checkIn env q1 db = checkIn env q2 db).
  { unfold checkIn. rewrite Hsame. reflexivity. }
  rewrite !handleCheckIn_unfold. rewrite H, Hcb.
  destruct (checkIn env q2 db) as [db' [r|r|e]]; cbn [fst snd];
    try destruct (onResult_report env q2); cbn [fst snd map retarget];
    (split; [reflexivity|]; split; [reflexivity|]);
    intros c Hc; cbn [In] in Hc;
    repeat (destruct Hc as [<-|Hc]; [auto|]); destruct Hc.
Qed.

(** X12 at Ana's token alone and at the payload of her artifact. *)
Lemma checkIn_reads_token_only_witness :
  (handleCheckIn (quiet 1000) Sample.qrA initial Sample.dbA).1
  = (handleCheckIn (quiet 1000) Sample.payloadA initial Sample.dbA).1
  /\ (handleCheckIn (quiet 1000) Sample.payloadA initial Sample.dbA).2
     = [OnResultCheckedIn Sample.payloadA; StatusResetTimer].
Proof.
  destruct (checkIn_reads_token_only (quiet 1000) Sample.qrA Sample.payloadA
              initial Sample.dbA eq_refl eq_refl) as (H1 & H2 & _).
  split; [exact H1|]. rewrite H2. vm_compute. reflexivity.
Defined.

End CheckInStore.

Section CheckInFaults.
Import Scanner.

(** X9: a rejected store call is reported with its own message and the
    record is not checked in: when the read rejects the store is as the
    run found it; when the write rejects it is as the other clients left
    it. *)
Theorem checkIn_store_fault (env : Env) (qrData : JSON.value) (id m : jsstring)
    (sc : Scanner) (db : Firestore.Store)
    (Htoken : JSON.get qrData (js "token") = Some (Some (JSON.Str id)))
    (Hid : id <> [])
    (Hfault : getDoc_fault env = Some m
              \/ (getDoc_fault env = None /\ updateDoc_fault env = Some m
                  /\ exists r, db !! id = Some r
                               /\ Firestore.status r <> Firestore.checked_in)) :
  let out := handleCheckIn env qrData sc db in
  out.2 = [OnError (Firestore.StoreFault m); StatusResetTimer]
  /\ status out.1.1 = failedStatus (Firestore.StoreFault m)
  /\ isProcessing out.1.1 = false
  /\ (getDoc_fault env = Some m -> out.1.2 = db)
  /\ (getDoc_fault env = None -> out.1.2 = concurrent env db).
Proof.
  intros out. subst out. unfold handleCheckIn.
  rewrite (checkIn_steps env qrData id Htoken Hid).
  destruct Hfault as [Hg|(Hg & Hu & r & Hr & Hs)]; rewrite Hg.
  - cbn. repeat split; (reflexivity || discriminate || auto).
  - rewrite Hr, Hu. destruct (decide _) as [He|_]; [congruence|].
    cbn. repeat split; (reflexivity || discriminate || auto).
Qed.

Lemma checkIn_store_fault_witness :
  let out := handleCheckIn Sample.writeFails Sample.qrA initial Sample.dbA in
  out.2 = [OnError (Firestore.StoreFault (js "unavailable")); StatusResetTimer]
  /\ status out.1.1 = failedStatus (Firestore.StoreFault (js "unavailable"))
  /\ isProcessing out.1.1 = false
  /\ out.1.2 = Sample.dbA.
Proof.
  intros out.
  assert (Hid : Sample.tokA <> []) by discriminate.
  assert (Hs : Firestore.status Sample.recA <> Firestore.checked_in) by discriminate.
  assert (Hr : Sample.dbA !! Sample.tokA = Some Sample.recA) by reflexivity.
  destruct (checkIn_store_fault Sample.writeFails Sample.qrA Sample.tokA
              (js "unavailable") initial Sample.dbA eq_refl Hid
              (or_intror (conj eq_refl (conj eq_refl
                 (ex_intro _ Sample.recA (conj Hr Hs))))))
    as (H1 & H2 & H3 & _ & H5).
  split; [exact H1|]. split; [exact H2|]. split; [exact H3|]. exact (H5 eq_refl).
Defined.

End CheckInFaults.

Section GateSpacing.
Import Scanner.

Lemma forall_le_trans (a b : Z) (l : list Z) :
  (a <= b)%Z -> Forall (fun z => (b <= z)%Z) l -> Forall (fun z => (a <= z)%Z) l.
Proof. intros Hab H. eapply Forall_impl; [exact H|]. intros z Hz. cbn in Hz. lia. Qed.

Lemma spaced_cons (gap a : Z) (l : list Z) :
  Forall (fun z => (a + gap <= z)%Z) l -> spaced gap l -> spaced gap (a :: l).
Proof.
  intros Hall Hs. destruct l as [|b l]; [exact I|].
  split; [|exact Hs]. apply Forall_inv in Hall. exact Hall.
Qed.

Lemma scanner_accepted (p : Props) (seen : bool) (hits : list (Z * jsstring)) :
  (0 <= cooldownMs p)%Z ->
  forall sc : Scanner,
    spaced (cooldownMs p) (accepted (decodeCallback p seen) hits sc)
    /\ Forall (fun z => (nextAllowedRef sc <= z)%Z)
         (accepted (decodeCallback p seen) hits sc).
Proof.
  intros Hc. induction hits as [|[z text] hits IH]; intros sc.
  { split; [exact I|constructor]. }
  cbn [accepted]. destruct seen.
  { cbn [decodeCallback negb]. apply IH. }
  destruct (Z.ltb_spec z (nextAllowedRef sc)) as [Hlt|Hge].
  - rewrite discarded_hit by exact Hlt. apply IH.
  - destruct (accepted_hit p z text sc Hge) as [Hn Hcalls].
    destruct (decodeCallback p false z (Some text) sc) as [sc1 calls].
    cbn [fst snd] in Hn, Hcalls. destruct calls as [|c calls]; [congruence|].
    destruct (IH sc1) as [Hs Hall]. rewrite Hn in Hall.
    split; [apply spaced_cons; assumption|].
    constructor; [exact Hge|]. apply (forall_le_trans _ (z + cooldownMs p)); [lia|exact Hall].
Qed.

Lemma plain_accepted_times (c : Z) (hits : list (Z * jsstring)) :
  (0 <= c)%Z ->
  forall sc : PlainScanner.Scanner,
    spaced c (accepted (PlainScanner.decodeCallback c) hits sc)
    /\ Forall (fun z => (PlainScanner.nextAllowedRef sc <= z)%Z)
         (accepted (PlainScanner.decodeCallback c) hits sc).
Proof.
  intros Hc. induction hits as [|[z text] hits IH]; intros sc.
  { split; [exact I|constructor]. }
  cbn [accepted].
  destruct (Z.ltb_spec z (PlainScanner.nextAllowedRef sc)) as [Hlt|Hge].
  - rewrite plain_discarded by exact Hlt. apply IH.
  - destruct (plain_accepted c z text sc Hge) as [Hn Hcalls].
    destruct (PlainScanner.decodeCallback c z (Some text) sc) as [sc1 calls].
    cbn [fst snd] in Hn, Hcalls. subst calls.
    destruct (IH sc1) as [Hs Hall]. rewrite Hn in Hall.
    split; [apply spaced_cons; assumption|].
    constructor; [exact Hge|]. apply (forall_le_trans _ (z + c)); [lia|exact Hall].
Qed.

(** X14: with a cooldown that is not negative, the hits that either
    scanner acts on, out of any sequence of hits in any order of times,
    lie at least cooldownMs apart, and none is earlier than the deadline
    the sequence started with. *)
Theorem accepted_hits_spaced (p : Props) (seen : bool) (sc : Scanner)
    (psc : PlainScanner.Scanner) (hits : list (Z * jsstring))
    (Hc : (0 <= cooldownMs p)%Z) :
  spaced (cooldownMs p) (accepted (decodeCallback p seen) hits sc)
  /\ Forall (fun z => (nextAllowedRef sc <= z)%Z)
       (accepted (decodeCallback p seen) hits sc)
  /\ spaced (cooldownMs p) (accepted (PlainScanner.decodeCallback (cooldownMs p)) hits psc)
  /\ Forall (fun z => (PlainScanner.nextAllowedRef psc <= z)%Z)
       (accepted (PlainScanner.decodeCallback (cooldownMs p)) hits psc).
Proof.
  destruct (scanner_accepted p seen hits Hc sc) as [H1 H2].
  destruct (plain_accepted_times (cooldownMs p) hits Hc psc) as [H3 H4].
  auto.
Qed.

Lemma accepted_hits_spaced_witness :
  let hits := [(1000, js "a"); (1100, js "b"); (900, js "c"); (1200, js "d");
               (1250, js "e"); (1400, js "f")]%Z in
  accepted (decodeCallback defaultProps false) hits initial = [1000; 1200; 1400]%Z
  /\ spaced 200 (accepted (decodeCallback defaultProps false) hits initial)
  /\ spaced 200 (accepted (PlainScanner.decodeCallback 200) hits PlainScanner.initial).
Proof.
  intros hits. split; [vm_compute; reflexivity|].
  pose proof (accepted_hits_spaced defaultProps false initial PlainScanner.initial hits
                ltac:(cbn; lia)) as (H1 & _ & H3 & _).
  split; [exact H1|exact H3].
Defined.

End GateSpacing.

Section Controls.
Import Scanner.

(** X15: when the camera request fails, either scanner ends not
    running, registers no callback, passes the fault to onError, keeps its
    deadline, and shows a status line that tells the four causes
    apart. *)
Theorem start_camera_failure (p : Props) (c : Z) (e e' : CameraFault)
    (sc : Scanner) (psc : PlainScanner.Scanner) :
  let out := start p (Some e) sc in
  let pout := PlainScanner.start (hint p) c (Some e) psc in
  running out.1.1 = false /\ out.1.2 = None /\ out.2 = [OnCameraError e]
  /\ nextAllowedRef out.1.1 = nextAllowedRef sc
  /\ isProcessing out.1.1 = isProcessing sc
  /\ PlainScanner.running pout.1.1 = false /\ pout.1.2 = None /\ pout.2 = [e]
  /\ PlainScanner.nextAllowedRef pout.1.1 = PlainScanner.nextAllowedRef psc
  /\ PlainScanner.status pout.1.1 = status out.1.1
  /\ (status (start p (Some e') sc).1.1 = status out.1.1 -> e' = e).
Proof.
  intros out pout. subst out pout.
  repeat (split; [destruct e; reflexivity|]).
  destruct e, e'; (reflexivity || (vm_compute; discriminate)).
Qed.

(** X16: stopping and starting again does not reset the cooldown: a hit
    that arrives after a restart but before the deadline set by the last
    accepted hit is dropped, in either scanner. *)
Theorem restart_keeps_deadline (p : Props) (sc : Scanner)
    (psc : PlainScanner.Scanner) (now : Z) (text : jsstring)
    (Hsc : (now < nextAllowedRef sc)%Z)
    (Hpsc : (now < PlainScanner.nextAllowedRef psc)%Z) :
  let out := start p None (stop sc) in
  let pout := PlainScanner.start (hint p) (cooldownMs p) None (PlainScanner.stop psc) in
  (exists cb, out.1.2 = Some cb /\ cb now (Some text) out.1.1 = (out.1.1, []))
  /\ (exists cb, pout.1.2 = Some cb /\ cb now (Some text) pout.1.1 = (pout.1.1, [])).
Proof.
  intros out pout. subst out pout. split.
  - eexists. split; [reflexivity|]. apply discarded_hit. exact Hsc.
  - eexists. split; [reflexivity|]. apply plain_discarded. exact Hpsc.
Qed.

Lemma restart_keeps_deadline_witness :
  let sc := setNextAllowed 1200 initial in
  let psc := PlainScanner.mkScanner true [] 1200 in
  let out := start defaultProps None (stop sc) in
  let pout := PlainScanner.start (hint defaultProps) 200 None (PlainScanner.stop psc) in
  (exists cb, out.1.2 = Some cb /\ cb 1100%Z (Some (js "again")) out.1.1 = (out.1.1, []))
  /\ (exists cb, pout.1.2 = Some cb /\ cb 1100%Z (Some (js "again")) pout.1.1 = (pout.1.1, [])).
Proof.
  intros sc psc. apply (restart_keeps_deadline defaultProps sc psc 1100 (js "again"));
    reflexivity.
Defined.

(** X17: the callback hands to handleCheckIn nothing but the parsed form
    of the decoded text, and only when it does not see the busy flag, the
    deadline has passed, the value's t is the string "rsvp" and its token
    is truthy. *)
Theorem dispatch_only_rsvp (p : Props) (seen : bool) (now : Z)
    (result : option jsstring) (sc : Scanner) (qrData : JSON.value)
    (Hcall : In (HandleCheckIn qrData) (decodeCallback p seen now result sc).2) :
  seen = false
  /\ (nextAllowedRef sc <= now)%Z
  /\ (exists text, result = Some text /\ JSON.parse text = Some qrData)
  /\ JSON.get qrData (js "t") = Some (Some (JSON.Str (js "rsvp")))
  /\ exists tok, JSON.get qrData (js "token") = Some tok /\ JSON.truthy tok = true.
Proof.
  revert Hcall. unfold decodeCallback.
  destruct result as [text|]; [|intros []].
  destruct seen; [intros []|]. cbn [negb].
  destruct (Z.ltb_spec now (nextAllowedRef sc)) as [Hlt|Hge]; [intros []|].
  intros Hcall. apply dispatch_calls in Hcall.
  destruct Hcall as [(q & [= <-] & Hc)|[|[m]]]; [|discriminate..].
  revert Hc. unfold classify.
  destruct (JSON.parse text) as [v|] eqn:Ep; [|discriminate].
  destruct (JSON.get v (js "t")) as [kind|] eqn:Ek; [|discriminate].
  destruct (JSON.get v (js "token")) as [tok|] eqn:Et; [|discriminate].
  destruct (is_rsvp kind) eqn:Ei; [|discriminate].
  destruct (JSON.truthy tok) eqn:Etr; [|discriminate].
  cbn [andb]. intros [= <-].
  split; [reflexivity|]. split; [exact Hge|]. split; [eauto|].
  split; [|eauto].
  rewrite Ek. unfold is_rsvp in Ei.
  destruct kind as [[| | |s| |]|]; try discriminate.
  apply bool_decide_eq_true in Ei. subst s. reflexivity.
Qed.

Lemma dispatch_only_rsvp_witness :
  (1000 <= 1000)%Z
  /\ (exists text, Some (Generator.payloadOf Sample.recA) = Some text
                   /\ JSON.parse text = Some Sample.payloadA)
  /\ JSON.get Sample.payloadA (js "t") = Some (Some (JSON.Str (js "rsvp"))).
Proof.
  assert (H : In (HandleCheckIn Sample.payloadA)
                (decodeCallback defaultProps false 1000
                   (Some (Generator.payloadOf Sample.recA))
                   (setNextAllowed 1000 initial)).2)
    by (vm_compute; left; reflexivity).
  destruct (dispatch_only_rsvp defaultProps false 1000
              (Some (Generator.payloadOf Sample.recA)) (setNextAllowed 1000 initial)
              Sample.payloadA H) as (_ & H2 & H3 & H4 & _).
  split; [exact H2|]. split; [exact H3|exact H4].
Defined.

(** X18: whatever either callback passes to onResult is the decoded
    text itself; the check-in scanner's callback never calls onError, and
    leaves running, the busy flag and the last scan result as they
    were. *)
Theorem callback_reports_raw_text (p : Props) (seen : bool) (c now : Z)
    (result : option jsstring) (sc : Scanner) (psc : PlainScanner.Scanner) :
  let out := decodeCallback p seen now result sc in
  let pout := PlainScanner.decodeCallback c now result psc in
  (forall x, In (OnResult x) out.2 -> result = Some x)
  /\ (forall x, In x pout.2 -> result = Some x)
  /\ (forall e, ~ In (OnError e) out.2)
  /\ running out.1 = running sc
  /\ isProcessing out.1 = isProcessing sc
  /\ lastScanResult out.1 = lastScanResult sc
  /\ PlainScanner.running pout.1 = PlainScanner.running psc.
Proof.
  intros out pout. subst out pout. unfold decodeCallback, PlainScanner.decodeCallback.
  destruct result as [text|].
  2:{ cbn. repeat split; try reflexivity; intros x []. }
  assert (Hd := dispatch_frame p text (setNextAllowed (now + cooldownMs p) sc)).
  assert (Hc := dispatch_calls p text (setNextAllowed (now + cooldownMs p) sc)).
  cbv zeta in Hd. destruct Hd as (_ & Hrun & Hbusy & Hlast & _).
  destruct (dispatch p text (setNextAllowed (now + cooldownMs p) sc)) as [sc' calls].
  cbn [fst snd] in *.
  destruct (now <? PlainScanner.nextAllowedRef psc)%Z;
  destruct seen; cbn [negb];
  try destruct (now <? nextAllowedRef sc)%Z;
  cbn [fst snd PlainScanner.running];
  (split; [intros x Hx|split; [intros x Hx|split; [intros e He|auto]]]);
  repeat match goal with
         | H : In _ [] |- _ => destruct H
         | H : In _ (_ :: _) |- _ => destruct H as [H|H]
         | H : In _ calls |- _ =>
           apply Hc in H; destruct H as [(q & H & _)|[H|[m H]]]
         end; congruence.
Qed.

End Controls.

Section EndToEndWitness.
Import Generator Scanner.

(** X19 at Ana's submission with a parent whose callback returns. *)
Lemma register_scan_check_in_witness :
  let record := newRecord Sample.tok0 Sample.ana 100 in
  let db1 := (handleSubmit (Sample.zeros (Some Sample.url)) Sample.form Sample.dbA).2 in
  let first := handleCheckIn (quiet 1000) (scanned record) initial db1 in
  let second := handleCheckIn (quiet 2000) (scanned record) first.1.1 first.1.2 in
  db1 !! Sample.tok0 = Some record
  /\ (decodeCallback defaultProps false 500 (Some (payloadOf record)) initial).2
     = [HandleCheckIn (scanned record)]
  /\ out_status first = successStatus record
  /\ first.1.2 !! Sample.tok0 = Some (checkInFields 1000 record)
  /\ out_status second = alreadyStatus record
  /\ second.1.2 = first.1.2.
Proof.
  assert (Hv : isValid (data Sample.form) = true) by reflexivity.
  assert (Hs : setDoc_fault (Sample.zeros (Some Sample.url)) = None) by reflexivity.
  assert (Hg : (nextAllowedRef initial <= 500)%Z) by (cbn; lia).
  destruct (register_scan_check_in (Sample.zeros (Some Sample.url)) Sample.form Sample.dbA
              defaultProps initial 500 1000 2000 (fun _ => None) (fun _ => None)
              Hv Hs Hg) as (H1 & H2 & H3 & _ & H4 & _ & H5 & H6 & _).
  split; [exact H1|]. split; [exact H2|]. split; [exact (H4 eq_refl)|].
  split; [exact H3|]. split; [exact H5|exact H6].
Defined.

End EndToEndWitness.

Section StoreInvariant.
Import Scanner.

(** X20: the shape of the stored documents is kept by both writers: a
    store in which every document has its id as token, the kind tag
    "rsvp", and check-in fields exactly when it is checked in, is such a
    store again after a submission, and after a check-in run that no other
    client interleaves with. *)
Theorem writers_keep_store_well_formed (genv : Generator.Env) (st : Generator.State)
    (env : Env) (qrData : JSON.value) (sc : Scanner) (db : Firestore.Store)
    (Hwf : well_formed_store db)
    (Hquiet : forall d : Firestore.Store, concurrent env d = d) :
  well_formed_store (Generator.handleSubmit genv st db).2
  /\ well_formed_store (handleCheckIn env qrData sc db).1.2.
Proof.
  split; intros k r Hk.
  - destruct (decide (k = Generator.makeToken (Generator.rng genv) (Some 16%nat)))
      as [->|Hne].
    + revert Hk. unfold Generator.handleSubmit. cbn [Generator.data].
      destruct (negb (Generator.isValid (Generator.data st))); [apply Hwf|].
      destruct (Generator.setDoc_fault genv); [apply Hwf|].
      destruct (Generator.toDataURL genv _); cbn [snd]; unfold Firestore.setDoc;
        rewrite lookup_insert_eq; intros [= <-];
        (split; [reflexivity|]; split; [reflexivity|]; split; [discriminate|reflexivity]).
    + apply Hwf. rewrite <- Hk. symmetry.
      unfold Generator.handleSubmit. cbn [Generator.data].
      destruct (negb (Generator.isValid (Generator.data st))); [reflexivity|].
      destruct (Generator.setDoc_fault genv); [reflexivity|].
      destruct (Generator.toDataURL genv _); cbn [snd]; unfold Firestore.setDoc;
        apply lookup_insert_ne; congruence.
  - destruct (handleCheckIn_document env qrData sc db k Hquiet) as [H|(r0 & Hr0 & _ & H)];
      cbv zeta in H; rewrite H in Hk.
    + exact (Hwf k r Hk).
    + injection Hk as <-. destruct (Hwf k r0 Hr0) as (Ht & Hk' & _ & _).
      split; [exact Ht|]. split; [exact Hk'|].
      split; [intros _; repeat split; discriminate|discriminate].
Qed.

Lemma writers_keep_store_well_formed_witness :
  well_formed_store
    (Generator.handleSubmit (Sample.zeros (Some Sample.url)) Sample.form Sample.dbA).2
  /\ well_formed_store (handleCheckIn (quiet 1000) Sample.qrA initial Sample.dbA).1.2.
Proof.
  assert (Hwf : well_formed_store Sample.dbA).
  { intros k r Hk. unfold Sample.dbA in Hk.
    apply lookup_singleton_Some in Hk as [<- <-].
    split; [reflexivity|]. split; [reflexivity|]. split; [discriminate|reflexivity]. }
  apply (writers_keep_store_well_formed (Sample.zeros (Some Sample.url)) Sample.form
           (quiet 1000) Sample.qrA initial Sample.dbA Hwf).
  reflexivity.
Defined.

End StoreInvariant.
